(** * Signaling relay of backend/main.py: room registry, connection
      directory and Socket.IO event router

    The development embeds the handlers of [backend/main.py] as functions
    in a small state / exception / output monad and settles the claims of
    the specification about them.

    Conventions of the embedding.
    - The two module globals [active_rooms] and [room_connections]
      (lines 28-29) and the Socket.IO server's room table form the store.
    - Every handler body runs atomically: interleavings at [await] points
      are outside this model.
    - [print] calls write to standard output only and are left out.
    - Event payloads carry the fields of the wire contract; [data.get(k)]
      of a key the client did not send is [None].
    - [sio.enter_room] and [sio.leave_room] are called without [await]
      (lines 222 and 308).  Whether such a call acts depends on the
      version of the Socket.IO library, which the source does not pin;
      [join], [leave] and the runs built on them take the library as a
      parameter, and the statements about them hold for both.
    - What the operating system answers to a file-system call is an
      input of the handler that makes the call. *)

From stdpp Require Import gmap strings list fin_maps.

#[local] Set Warnings "-clear-no-such-hyp".

Local Open Scope string_scope.
Local Open Scope Z_scope.
Local Open Scope list_scope.

(** ** Python values and exceptions *)

(** The JSON-like values that travel through event payloads: [None], a
    string, or an object such as a session description, which the relay
    never inspects. *)
Inductive pyval :=
  | PyNone
  | PyStr (s : string)
  | PyDict (kvs : list (string * string)).

(** The exceptions the modelled code can raise. *)
Inductive exn :=
  | AttributeError (owner attr : string)
  | TypeError (msg : string)
  | OSError (name : string)
  | HTTPException (status_code : Z) (detail : string).

(** Truthiness of an optional string: [None] and the empty string are
    falsy, every other string is truthy. *)
Definition truthy (v : option string) : bool :=
  match v with
  | None => false
  | Some s => bool_decide (s ≠ "")
  end.

(** ** The standard library's [datetime] as far as the code uses it *)

Module datetime.

(** A [datetime.datetime] value: [wall] is the calendar reading in
    microseconds, [tzinfo] the UTC offset in microseconds of an aware
    value and [None] for a naive one. *)
Record t := mk { wall : Z; tzinfo : option Z }.

(** [timedelta(hours=n)] in microseconds. *)
Definition timedelta_hours (n : Z) : Z := n * 3600000000.

(** [datetime.utcnow()]: the naive UTC reading of the clock. *)
Definition utcnow (clock : Z) : t := mk clock None.

(** [datetime.now(tz)]: the aware reading of the clock in zone [tz]. *)
Definition now (clock : Z) (tz : Z) : t := mk (clock + tz) (Some tz).

(** [d + delta]. *)
Definition add (d : t) (delta : Z) : t := mk (wall d + delta) (tzinfo d).

(** [a > b].  Two naive values compare by their readings, two aware
    values by their UTC instants, and a naive value against an aware
    one raises [TypeError]. *)
Definition gt (a b : t) : exn + bool :=
  match tzinfo a, tzinfo b with
  | None, None => inr (bool_decide (wall b < wall a))
  | Some oa, Some ob => inr (bool_decide (wall b - ob < wall a - oa))
  | _, _ => inl (TypeError "can't compare offset-naive and offset-aware datetimes")
  end.

(** The text written by [isoformat()].  It is represented by the value
    it denotes: [fromisoformat (isoformat d) = d] for naive and aware
    values alike (an aware value prints its offset, a naive one none). *)
Definition isostring := t.
Definition isoformat (d : t) : isostring := d.
Definition fromisoformat (s : isostring) : t := s.

(** The Python objects that the expression [datetime.timezone.utc] can
    touch.  Line 8 is [from datetime import datetime, timedelta], so the
    global name [datetime] is the class [datetime.datetime], not the
    module. *)
Inductive pyobj :=
  | class_datetime
  | class_timezone
  | timezone_utc
  | attribute (owner name : string).

(** The public attributes of the class [datetime.datetime]. *)
Definition class_datetime_dir : list string :=
  [ "astimezone"; "combine"; "ctime"; "date"; "day"; "dst"; "fold";
    "fromisocalendar"; "fromisoformat"; "fromordinal"; "fromtimestamp";
    "hour"; "isocalendar"; "isoformat"; "isoweekday"; "max";
    "microsecond"; "min"; "minute"; "month"; "now"; "replace";
    "resolution"; "second"; "strftime"; "strptime"; "time"; "timestamp";
    "timetuple"; "timetz"; "today"; "toordinal"; "tzinfo"; "tzname";
    "utcfromtimestamp"; "utcnow"; "utcoffset"; "utctimetuple"; "weekday";
    "year" ].

(** Attribute lookup [o.name]. *)
Definition getattr (o : pyobj) (name : string) : exn + pyobj :=
  match o with
  | class_datetime =>
      if bool_decide (name ∈ class_datetime_dir)
      then inr (attribute "datetime.datetime" name)
      else inl (AttributeError "datetime.datetime" name)
  | class_timezone =>
      if bool_decide (name = "utc") then inr timezone_utc
      else inl (AttributeError "datetime.timezone" name)
  | timezone_utc => inl (AttributeError "datetime.timezone.utc" name)
  | attribute owner _ => inl (AttributeError owner name)
  end.

(** The [tz] argument of [datetime.now]: a tzinfo object gives its
    offset, anything else is rejected. *)
Definition as_tzinfo (o : pyobj) : exn + Z :=
  match o with
  | timezone_utc => inr 0
  | _ => inl (TypeError "tzinfo argument must be None or of a tzinfo subclass")
  end.

End datetime.

(** ** Insertion-ordered dictionaries

    [room_connections] is iterated by [disconnect], so the order of its
    keys is observable; it is kept as an association list in insertion
    order.  A Python dict has each key once. *)

Module odict.
Section odict.
Context {V : Type}.

Fixpoint lookup (k : string) (d : list (string * V)) : option V :=
  match d with
  | [] => None
  | (k', v) :: d' => if bool_decide (k' = k) then Some v else lookup k d'
  end.

(** [d[k] = v]: an existing key keeps its place, a new one goes last. *)
Fixpoint set (k : string) (v : V) (d : list (string * V)) : list (string * V) :=
  match d with
  | [] => [(k, v)]
  | (k', v') :: d' =>
      if bool_decide (k' = k) then (k', v) :: d' else (k', v') :: set k v d'
  end.

End odict.
End odict.

(** [list.remove(x)]: drop the first occurrence of [x]. *)
Fixpoint list_remove_first (x : string) (l : list string) : list string :=
  match l with
  | [] => []
  | y :: l' => if bool_decide (y = x) then l' else y :: list_remove_first x l'
  end.

(** ** The store and the handler monad *)

(** A room dictionary as [create_room] lays it out (lines 77-84). *)
Record room_info := mk_room {
  roomId : string;
  companionId : option string;
  userId : string;
  expiresAt : datetime.isostring;
  status : string;
  createdAt : datetime.isostring
}.

(** [room_info["status"] = s], the other keys untouched. *)
Definition set_status (s : string) (r : room_info) : room_info :=
  mk_room (roomId r) (companionId r) (userId r) (expiresAt r) s (createdAt r).

(** The request body of [POST /api/video/rooms] (lines 32-34). *)
Record RoomCreate := mk_RoomCreate {
  rc_userId : string;
  rc_companionId : option string
}.

(** The response model (lines 36-41); [createdAt] is not part of it. *)
Record RoomResponse := mk_RoomResponse {
  rr_roomId : string;
  rr_companionId : option string;
  rr_userId : string;
  rr_expiresAt : datetime.isostring;
  rr_status : string
}.

(** The response built from the keys of [room_info] (lines 89 and 105). *)
Definition RoomResponse_of (r : room_info) : RoomResponse :=
  mk_RoomResponse (roomId r) (companionId r) (userId r) (expiresAt r) (status r).

(** The store: the Room Registry [active_rooms], the Connection Directory
    [room_connections], and the Socket.IO server's table of broadcast
    groups, which maps a group name to the sessions entered into it. *)
Record store := mk_store {
  active_rooms : gmap string room_info;
  room_connections : list (string * list string);
  sio_rooms : gmap string (gset string)
}.

(** One call of [sio.emit(event, data, room=..., skip_sid=...)], together
    with the sessions the server delivers it to at that moment. *)
Record emission := mk_emission {
  em_event : string;
  em_data : list (string * pyval);
  em_room : string;
  em_skip_sid : option string;
  em_to : gset string
}.

(** A handler: from a store to a result or a raised exception, the store
    it leaves behind, and the emissions it made, in order. *)
Definition M (A : Type) : Type := store → (exn + A) * store * list emission.

Definition ret {A} (a : A) : M A := λ s, (inr a, s, []).

Definition bind {A B} (m : M A) (k : A → M B) : M B := λ s,
  match m s with
  | (inl e, s', out) => (inl e, s', out)
  | (inr a, s', out) =>
      match k a s' with
      | (r, s'', out') => (r, s'', out ++ out')
      end
  end.

Definition raise {A} (e : exn) : M A := λ s, (inl e, s, []).

(** Lifting of a computation that only raises or returns. *)
Definition lift {A} (r : exn + A) : M A := λ s, (r, s, []).

Definition reads {A} (f : store → A) : M A := λ s, (inr (f s), s, []).

Definition modify (f : store → store) : M unit := λ s, (inr (), f s, []).

Notation "x ←! m ; k" := (bind m (λ x, k))
  (at level 20, m at level 100, k at level 200, only parsing).
Notation "m ;;! k" := (bind m (λ _, k))
  (at level 100, k at level 200, right associativity, only parsing).

Definition with_active_rooms (f : gmap string room_info → gmap string room_info)
    (s : store) : store :=
  mk_store (f (active_rooms s)) (room_connections s) (sio_rooms s).

Definition with_room_connections
    (f : list (string * list string) → list (string * list string))
    (s : store) : store :=
  mk_store (active_rooms s) (f (room_connections s)) (sio_rooms s).

Definition with_sio_rooms (f : gmap string (gset string) → gmap string (gset string))
    (s : store) : store :=
  mk_store (active_rooms s) (room_connections s) (f (sio_rooms s)).

(** The result, final store and emissions of a handler run. *)
Definition result_of {A} (x : (exn + A) * store * list emission) : exn + A := x.1.1.
Definition store_of {A} (x : (exn + A) * store * list emission) : store := x.1.2.
Definition emitted {A} (x : (exn + A) * store * list emission) : list emission := x.2.

(** ** The Socket.IO server (Transport Adapter)

    The server keeps, per group name, the set of sessions in it.  On
    connect it enters every session into a group named by its own handle,
    which is how [room=sid] addresses one client. *)

(** What [enter_room] and [leave_room] of the asynchronous server are:
    plain methods, which act when they are called (python-socketio before
    5.10), or coroutines, which act only when they are awaited (5.10 and
    later).  The source does not pin the version. *)
Inductive sio_library :=
  | plain_methods
  | coroutines.

Definition members (g : gmap string (gset string)) (room : string) : gset string :=
  default ∅ (g !! room).

Definition skipped (skip_sid : option string) : gset string :=
  match skip_sid with
  | Some sid => {[ sid ]}
  | None => ∅
  end.

(** The sessions an emit to [room] reaches. *)
Definition recipients (g : gmap string (gset string)) (room : string)
    (skip_sid : option string) : gset string :=
  members g room ∖ skipped skip_sid.

(** What [enter_room] does when it runs. *)
Definition sio_enter_room (sid room : string) : M unit :=
  modify (with_sio_rooms (λ g, <[room := {[ sid ]} ∪ members g room]> g)).

(** Leaving drops the session and forgets a group that became empty. *)
Definition leave_group (sid room : string) (g : gmap string (gset string))
    : gmap string (gset string) :=
  match g !! room with
  | None => g
  | Some m =>
      if bool_decide (m ∖ {[ sid ]} = ∅) then delete room g
      else <[room := m ∖ {[ sid ]}]> g
  end.

(** What [leave_room] does when it runs. *)
Definition sio_leave_room (sid room : string) : M unit :=
  modify (with_sio_rooms (leave_group sid room)).

(** A call of one of the two that the handler does not await (lines 222
    and 308): a plain method runs, a coroutine is created and dropped. *)
Definition not_awaited (lib : sio_library) (call : M unit) : M unit :=
  match lib with
  | plain_methods => call
  | coroutines => ret ()
  end.

Definition sio_emit (event : string) (data : list (string * pyval))
    (room : string) (skip_sid : option string) : M unit := λ s,
  (inr (), s,
   [ mk_emission event data room skip_sid (recipients (sio_rooms s) room skip_sid) ]).

(** ** HTTP facade: the Room Registry operations *)

(** The expression [datetime.timezone.utc] of lines 75 and 83, evaluated
    in the module's globals, where [datetime] names the class. *)
Definition datetime_timezone_utc : M Z :=
  tzc ←! lift (datetime.getattr datetime.class_datetime "timezone");
  utc ←! lift (datetime.getattr tzc "utc");
  lift (datetime.as_tzinfo utc).

(** [create_room] (lines 71-89).  [uuid4] is the identifier drawn by
    [uuid.uuid4()], [clock1] and [clock2] the two clock readings. *)
Definition create_room (uuid4 : string) (clock1 clock2 : Z)
    (room_data : RoomCreate) : M RoomResponse :=
  let room_id := uuid4 in
  tz ←! datetime_timezone_utc;
  let expires_at :=
    datetime.add (datetime.now clock1 tz) (datetime.timedelta_hours 2) in
  tz' ←! datetime_timezone_utc;
  let room_info :=
    mk_room room_id (rc_companionId room_data) (rc_userId room_data)
      (datetime.isoformat expires_at) "active"
      (datetime.isoformat (datetime.now clock2 tz')) in
  modify (with_active_rooms (insert room_id room_info)) ;;!
  modify (with_room_connections (odict.set room_id [])) ;;!
  ret (RoomResponse_of room_info).

(** [get_room] (lines 91-105).  [clock] is the reading [utcnow()] takes.
    [room_info] is the dictionary stored in the registry itself, so the
    assignment of line 102 is a write to the registry. *)
Definition get_room (clock : Z) (room_id : string) : M RoomResponse :=
  rooms ←! reads active_rooms;
  match rooms !! room_id with
  | None => raise (HTTPException 404 "Room not found")
  | Some room_info =>
      let expires_at := datetime.fromisoformat (expiresAt room_info) in
      expired ←! lift (datetime.gt (datetime.utcnow clock) expires_at);
      if expired : bool then
        modify (with_active_rooms (insert room_id (set_status "expired" room_info))) ;;!
        raise (HTTPException 410 "Room has expired")
      else ret (RoomResponse_of room_info)
  end.

(** The status line of the HTTP response: an [HTTPException] carries its
    own code, any other exception surfaces as 500. *)
Definition http_status {A} (r : exn + A) : Z :=
  match r with
  | inr _ => 200
  | inl (HTTPException code _) => code
  | inl _ => 500
  end.

(** ** Socket.IO events: the Signaling Router *)

(** The payload of an inbound event.  [d_roomId] is [data.get('roomId')];
    the other fields are relayed as they came. *)
Record event_data := mk_event_data {
  d_roomId : option string;
  d_userId : pyval;
  d_role : pyval;
  d_from : pyval;
  d_sdp : pyval;
  d_candidate : pyval;
  d_reason : pyval
}.

(** [connect] (lines 193-196) only prints. *)
Definition connect (sid : string) : M unit := ret ().

(** The loop of [disconnect] (lines 204-208) over the items of
    [room_connections], in order: a list that holds [sid] loses its first
    occurrence, and the room is told.  [g] is the server's group table,
    which the loop does not change. *)
Fixpoint disconnect_items (sid : string) (g : gmap string (gset string))
    (items : list (string * list string))
    : list (string * list string) * list emission :=
  match items with
  | [] => ([], [])
  | (room_id, connections) :: rest =>
      let '(rest', out) := disconnect_items sid g rest in
      if bool_decide (sid ∈ connections) then
        ((room_id, list_remove_first sid connections) :: rest',
         mk_emission "leave" [("userId", PyStr sid)] room_id (Some sid)
           (recipients g room_id (Some sid)) :: out)
      else ((room_id, connections) :: rest', out)
  end.

(** [disconnect] (lines 198-208). *)
Definition disconnect (sid : string) : M unit := λ s,
  let '(items, out) := disconnect_items sid (sio_rooms s) (room_connections s) in
  (inr (), mk_store (active_rooms s) items (sio_rooms s), out).

(** [join] (lines 210-236). *)
Definition join (lib : sio_library) (sid : string) (data : event_data) : M unit :=
  let room_id := d_roomId data in
  let user_id := d_userId data in
  let role := d_role data in
  rooms ←! reads active_rooms;
  match room_id with
  | Some rid =>
      if negb (truthy room_id) || bool_decide (rooms !! rid = None) then
        sio_emit "error" [("message", PyStr "Room not found")] sid None
      else
        not_awaited lib (sio_enter_room sid rid) ;;!
        conns ←! reads room_connections;
        (if bool_decide (odict.lookup rid conns = None)
         then modify (with_room_connections (odict.set rid []))
         else ret ()) ;;!
        conns' ←! reads room_connections;
        modify (with_room_connections
                  (odict.set rid (default [] (odict.lookup rid conns') ++ [sid]))) ;;!
        sio_emit "user_joined" [("userId", user_id); ("role", role)] rid (Some sid)
  | None => sio_emit "error" [("message", PyStr "Room not found")] sid None
  end.

(** The common shape of [offer], [answer] and [candidate]: relay [body]
    under the sender-supplied [from] to the room, skipping the sender. *)
Definition relay (event : string) (key : string) (body : pyval)
    (sid : string) (data : event_data) : M unit :=
  let room_id := d_roomId data in
  let from_user := d_from data in
  match room_id with
  | Some rid =>
      if negb (truthy room_id) then ret ()
      else sio_emit event [("from", from_user); (key, body)] rid (Some sid)
  | None => ret ()
  end.

(** [offer] (lines 238-256). *)
Definition offer (sid : string) (data : event_data) : M unit :=
  relay "offer" "sdp" (d_sdp data) sid data.

(** [answer] (lines 258-276). *)
Definition answer (sid : string) (data : event_data) : M unit :=
  relay "answer" "sdp" (d_sdp data) sid data.

(** [candidate] (lines 278-294). *)
Definition candidate (sid : string) (data : event_data) : M unit :=
  relay "candidate" "candidate" (d_candidate data) sid data.

(** [leave] (lines 296-318). *)
Definition leave (lib : sio_library) (sid : string) (data : event_data) : M unit :=
  let room_id := d_roomId data in
  let user_id := d_userId data in
  match room_id with
  | Some rid =>
      if negb (truthy room_id) then ret ()
      else
        not_awaited lib (sio_leave_room sid rid) ;;!
        conns ←! reads room_connections;
        (match odict.lookup rid conns with
         | Some connections =>
             if bool_decide (sid ∈ connections) then
               modify (with_room_connections
                         (odict.set rid (list_remove_first sid connections)))
             else ret ()
         | None => ret ()
         end) ;;!
        sio_emit "user_left" [("userId", user_id)] rid None
  | None => ret ()
  end.

(** [end] (lines 320-340). *)
Definition end_ (sid : string) (data : event_data) : M unit :=
  let room_id := d_roomId data in
  let reason := d_reason data in
  match room_id with
  | Some rid =>
      if negb (truthy room_id) then ret ()
      else
        rooms ←! reads active_rooms;
        (match rooms !! rid with
         | Some room_info =>
             modify (with_active_rooms (insert rid (set_status "ended" room_info)))
         | None => ret ()
         end) ;;!
        sio_emit "call_ended" [("reason", reason)] rid None
  | None => ret ()
  end.

(** ** Runs of the system *)

(** What the Socket.IO server does around the two connection handlers: a
    new session enters the group named by its handle before [connect]
    runs, and leaves every group after [disconnect] has run.  The server
    awaits its own calls, so these act under either library. *)
Definition server_connect (sid : string) : M unit :=
  sio_enter_room sid sid ;;! connect sid.

Definition server_disconnect (sid : string) : M unit :=
  disconnect sid ;;!
  modify (with_sio_rooms (omap (λ m : gset string,
    if bool_decide (m ∖ {[ sid ]} = ∅) then None else Some (m ∖ {[ sid ]})))).

(** The operations a client can trigger. *)
Inductive op :=
  | CreateRoom (uuid4 : string) (clock1 clock2 : Z) (room_data : RoomCreate)
  | GetRoom (clock : Z) (room_id : string)
  | Connect (sid : string)
  | Disconnect (sid : string)
  | Join (sid : string) (data : event_data)
  | Offer (sid : string) (data : event_data)
  | Answer (sid : string) (data : event_data)
  | Candidate (sid : string) (data : event_data)
  | Leave (sid : string) (data : event_data)
  | End (sid : string) (data : event_data).

(** The store an operation leaves behind.  A raised exception ends the
    request; writes made before it stay. *)
Definition step (lib : sio_library) (s : store) (o : op) : store :=
  match o with
  | CreateRoom uuid4 clock1 clock2 room_data =>
      store_of (create_room uuid4 clock1 clock2 room_data s)
  | GetRoom clock room_id => store_of (get_room clock room_id s)
  | Connect sid => store_of (server_connect sid s)
  | Disconnect sid => store_of (server_disconnect sid s)
  | Join sid data => store_of (join lib sid data s)
  | Offer sid data => store_of (offer sid data s)
  | Answer sid data => store_of (answer sid data s)
  | Candidate sid data => store_of (candidate sid data s)
  | Leave sid data => store_of (leave lib sid data s)
  | End sid data => store_of (end_ sid data s)
  end.

Definition run (lib : sio_library) (ops : list op) (s : store) : store :=
  foldl (step lib) s ops.

(** The status of a room in a store, if the room is there. *)
Definition status_in (s : store) (room_id : string) : option string :=
  status <$> active_rooms s !! room_id.

(** The connection list of a room, empty when the room has none. *)
Definition connections_of (s : store) (room_id : string) : list string :=
  default [] (odict.lookup room_id (room_connections s)).

(** ** HTTP facade: the remaining handlers *)

(** One ICE server entry (lines 49-52): [urls] is a list of strings or a
    single string. *)
Record ICEServer := mk_ICEServer {
  urls : list string + string;
  username : option string;
  credential : option string
}.

(** The response model of lines 54-55. *)
Record WebRTCConfig := mk_WebRTCConfig { iceServers : list ICEServer }.

(** [os.getenv(key, default)]: the variable's value when it is set, also
    when it is set to the empty string, and the default otherwise. *)
Definition os_getenv (environ : gmap string string) (key default_ : string) : string :=
  default default_ (environ !! key).

(** [get_webrtc_config] (lines 107-130), on the process environment. *)
Definition get_webrtc_config (environ : gmap string string) : WebRTCConfig :=
  let turn_username := os_getenv environ "TURN_USERNAME" "" in
  let turn_credential := os_getenv environ "TURN_CREDENTIAL" "" in
  let turn_url := os_getenv environ "TURN_URL" "turn:global.turn.twilio.com:3478" in
  let ice_servers :=
    [ mk_ICEServer (inl ["stun:stun.l.google.com:19302"]) None None;
      mk_ICEServer (inl ["stun:stun1.l.google.com:19302"]) None None ] in
  if bool_decide (turn_username ≠ "") && bool_decide (turn_credential ≠ "") then
    mk_WebRTCConfig
      (ice_servers ++
       [ mk_ICEServer (inr turn_url) (Some turn_username) (Some turn_credential) ])
  else mk_WebRTCConfig ice_servers.

(** The request body of [POST /api/chat/messages] (lines 43-47). *)
Record ChatMessage := mk_ChatMessage {
  cm_roomId : string;
  cm_from_user : option string;
  cm_text : string;
  cm_ts : Z
}.

(** The acknowledgement of lines 155-159. *)
Record ChatAck := mk_ChatAck {
  success : bool;
  messageId : string;
  timestamp : datetime.isostring
}.

(** [send_chat_message] (lines 146-160).  The dictionary of lines 156-160
    is built key by key: the identifier is drawn, then the time stamp is
    computed. *)
Definition send_chat_message (uuid4 : string) (clock : Z) (message : ChatMessage)
    : M ChatAck :=
  let room_id := cm_roomId message in
  rooms ←! reads active_rooms;
  if bool_decide (rooms !! room_id = None) then
    raise (HTTPException 404 "Room not found")
  else
    let message_id := uuid4 in
    tz ←! datetime_timezone_utc;
    ret (mk_ChatAck true message_id (datetime.isoformat (datetime.now clock tz))).

(** The body of [GET /health] (lines 345-349). *)
Record HealthReport := mk_HealthReport {
  h_status : string;
  h_active_rooms : nat;
  h_timestamp : datetime.t
}.

(** [health_check] (lines 343-349). *)
Definition health_check (clock : Z) : M HealthReport :=
  rooms ←! reads active_rooms;
  tz ←! datetime_timezone_utc;
  ret (mk_HealthReport "healthy" (size rooms) (datetime.now clock tz)).

(** The response model of lines 57-60. *)
Record RecordingResponse := mk_RecordingResponse {
  rec_recordingId : string;
  rec_roomId : string;
  rec_url : string
}.

(** The calls [upload_recording] makes to the file system: creating the
    directory (line 177), opening the file for writing, which creates or
    empties it (line 180), and writing the bytes (line 182). *)
Inductive fs_call :=
  | fs_makedirs (path : string)
  | fs_open_wb (path : string)
  | fs_write (path : string) (content : list Byte.byte).

(** What the operating system answers to each of the three calls: [None]
    when the call goes through, the raised exception otherwise ([open]
    raises when a directory on the path is missing, as for a file name
    that holds a slash). *)
Record os_answers := mk_os_answers {
  on_makedirs : option exn;
  on_open : option exn;
  on_write : option exn
}.

(** How an f-string prints a file name that may be [None]. *)
Definition format_filename (filename : option string) : string :=
  default "None" filename.

(** [upload_recording] (lines 162-189): the file-system calls that went
    through, in order, and the response or the exception raised.
    [filename] and [content] are the name and the bytes of the uploaded
    part, [roomId] the query parameter, [None] when it was not given.
    The handler reads the registry and writes to no store. *)
Definition upload_recording (uuid4 : string) (filename : option string)
    (content : list Byte.byte) (roomId_ : option string) (os : os_answers)
    (s : store) : list fs_call * (exn + RecordingResponse) :=
  match roomId_ with
  | Some rid =>
      if negb (truthy roomId_) || bool_decide (active_rooms s !! rid = None) then
        ([], inl (HTTPException 404 "Room not found"))
      else
        let recording_id := uuid4 in
        let file_location :=
          "recordings/" +:+ recording_id +:+ "_" +:+ format_filename filename in
        match on_makedirs os with
        | Some e => ([], inl e)
        | None =>
            match on_open os with
            | Some e => ([ fs_makedirs "recordings" ], inl e)
            | None =>
                match on_write os with
                | Some e =>
                    ([ fs_makedirs "recordings"; fs_open_wb file_location ], inl e)
                | None =>
                    ([ fs_makedirs "recordings"; fs_open_wb file_location;
                       fs_write file_location content ],
                     inr (mk_RecordingResponse recording_id rid
                            ("/recordings/" +:+ recording_id +:+ "_"
                             +:+ format_filename filename)))
                end
            end
        end
  | None => ([], inl (HTTPException 404 "Room not found"))
  end.

(** ** Emissions of a run *)

(** The stores as the module creates them (lines 28-29), with no session
    connected. *)
Definition initial_store : store := mk_store ∅ [] ∅.

(** The emissions an operation makes, in order. *)
Definition outputs (lib : sio_library) (s : store) (o : op) : list emission :=
  match o with
  | CreateRoom uuid4 clock1 clock2 room_data =>
      emitted (create_room uuid4 clock1 clock2 room_data s)
  | GetRoom clock room_id => emitted (get_room clock room_id s)
  | Connect sid => emitted (server_connect sid s)
  | Disconnect sid => emitted (server_disconnect sid s)
  | Join sid data => emitted (join lib sid data s)
  | Offer sid data => emitted (offer sid data s)
  | Answer sid data => emitted (answer sid data s)
  | Candidate sid data => emitted (candidate sid data s)
  | Leave sid data => emitted (leave lib sid data s)
  | End sid data => emitted (end_ sid data s)
  end.

(** All emissions of a sequence of operations, in order. *)
Fixpoint trace (lib : sio_library) (ops : list op) (s : store) : list emission :=
  match ops with
  | [] => []
  | o :: ops' => outputs lib s o ++ trace lib ops' (step lib s o)
  end.

(** An operation by which session [sid] enters a broadcast group. *)
Definition enters (sid : string) (o : op) : Prop :=
  o = Connect sid ∨ ∃ data, o = Join sid data.

(** ** Derived notions used in the statements *)

(** How often a handle is listed. *)
Definition occurrences (x : string) (l : list string) : nat :=
  length (filter (λ y, y = x) l).

(** The group table after the call of line 222, and after that of line
    308. *)
Definition entered (lib : sio_library) (sid rid : string)
    (g : gmap string (gset string)) : gmap string (gset string) :=
  match lib with
  | plain_methods => <[rid := {[ sid ]} ∪ members g rid]> g
  | coroutines => g
  end.

Definition departed (lib : sio_library) (sid rid : string)
    (g : gmap string (gset string)) : gmap string (gset string) :=
  match lib with
  | plain_methods => leave_group sid rid g
  | coroutines => g
  end.

(** The store after a successful join: the registry is the same, the
    room's connection list has the handle appended, and the group table
    is the one after the call of line 222. *)
Definition joined (lib : sio_library) (sid rid : string) (s : store) : store :=
  mk_store (active_rooms s)
    (odict.set rid (connections_of s rid ++ [sid]) (room_connections s))
    (entered lib sid rid (sio_rooms s)).


(** The directory after [leave]: the list of the room loses the first
    occurrence of the handle when it holds it. *)
Definition without (sid rid : string) (conns : list (string * list string))
    : list (string * list string) :=
  match odict.lookup rid conns with
  | Some connections =>
      if bool_decide (sid ∈ connections)
      then odict.set rid (list_remove_first sid connections) conns
      else conns
  | None => conns
  end.

(** The [leave] notice that [disconnect] sends to a room. *)
Definition leave_notice (sid : string) (g : gmap string (gset string))
    (room_id : string) : emission :=
  mk_emission "leave" [("userId", PyStr sid)] room_id (Some sid)
    (members g room_id ∖ {[ sid ]}).

(** ** Concrete rooms, events and stores used in the examples *)

(** A room as lines 77-84 lay it out from a clock reading of 0: both time
    stamps are written from aware values and carry the offset of UTC. *)
Definition ex_room_aware : room_info :=
  mk_room "room-1" None "alice"
    (datetime.isoformat
       (datetime.add (datetime.now 0 0) (datetime.timedelta_hours 2)))
    "active" (datetime.isoformat (datetime.now 0 0)).

(** A room whose time stamps are naive, with a given status. *)
Definition ex_room_naive (st : string) : room_info :=
  mk_room "room-1" None "alice"
    (datetime.mk (datetime.timedelta_hours 2) None) st (datetime.mk 0 None).

(** A store that holds one room, with sessions "a" and "b" connected. *)
Definition ex_store (r : room_info) : store :=
  store_of (server_connect "b"
    (store_of (server_connect "a"
       (mk_store {[ "room-1" := r ]} [("room-1", [])] ∅)))).

(** An event payload for a given [roomId]. *)
Definition ex_event (room_id : option string) : event_data :=
  mk_event_data room_id (PyStr "alice") (PyStr "caller") (PyStr "alice")
    (PyDict [("type", "offer"); ("sdp", "v=0")])
    (PyDict [("candidate", "candidate:1 1 udp 1 192.0.2.1 9 typ host")])
    (PyStr "timeout").

(** Session "a" has joined the room twice. *)
Definition ex_store_joined_twice (lib : sio_library) : store :=
  run lib
    [Join "a" (ex_event (Some "room-1")); Join "a" (ex_event (Some "room-1"))]
    (ex_store (ex_room_naive "active")).

(** Sessions "a" and "b" are both in the room, listed and in its group. *)
Definition ex_store_two_peers : store :=
  run plain_methods
    [Join "a" (ex_event (Some "room-1")); Join "b" (ex_event (Some "room-1"))]
    (ex_store (ex_room_naive "active")).


(** An operating system that lets every call through, and one on which
    [open] fails. *)
Definition ex_os_fine : os_answers := mk_os_answers None None None.
Definition ex_os_open_fails : os_answers :=
  mk_os_answers None (Some (OSError "FileNotFoundError")) None.

(** Session "a" is listed in two rooms, next to "b" in the first. *)
Definition ex_store_two_rooms : store :=
  mk_store ∅ [("room-1", ["a"; "b"]); ("room-2", ["a"]); ("room-3", ["b"])]
    {[ "a" := {[ "a" ]}; "b" := {[ "b" ]};
       "room-1" := {[ "a"; "b" ]}; "room-2" := {[ "a" ]}; "room-3" := {[ "b" ]} ]}.

(** * Properties *)

(** ** Facts on insertion-ordered dictionaries *)

Lemma odict_lookup_set_eq {V} (k : string) (v : V) (d : list (string * V)) :
  odict.lookup k (odict.set k v d) = Some v.
Proof.
  induction d as [|[k' v'] d IH]; simpl.
  - by rewrite bool_decide_eq_true_2.
  - case_bool_decide; simpl.
    + by rewrite bool_decide_eq_true_2.
    + by rewrite bool_decide_eq_false_2.
Qed.

Lemma odict_lookup_set_ne {V} (k k' : string) (v : V) (d : list (string * V)) :
  k ≠ k' → odict.lookup k' (odict.set k v d) = odict.lookup k' d.
Proof.
  intros Hne. induction d as [|[k0 v0] d IH]; simpl.
  - by rewrite bool_decide_eq_false_2.
  - case_bool_decide as Hk; simpl.
    + subst k0. by rewrite !bool_decide_eq_false_2.
    + by rewrite IH.
Qed.

(** ** Auxiliary facts on lists, dictionaries and groups *)

Lemma truthy_Some (s : string) : s ≠ "" → truthy (Some s) = true.
Proof. intros Hs. by apply bool_decide_eq_true_2. Qed.

Lemma truthy_false (v : option string) :
  truthy v = false ↔ v = None ∨ v = Some "".
Proof.
  destruct v as [s|]; simpl.
  - rewrite bool_decide_eq_false. split.
    + intros Hs. right. f_equal. by destruct (decide (s = "")).
    + intros [?|[= ->]]; [done | tauto].
  - split; [by left | done].
Qed.

Lemma list_remove_first_notin (x : string) (l : list string) :
  x ∉ l → list_remove_first x l = l.
Proof.
  induction l as [|y l IH]; simpl; [done|].
  rewrite not_elem_of_cons. intros [Hxy Hl].
  rewrite bool_decide_eq_false_2 by done. by rewrite IH.
Qed.

Lemma odict_set_set {V} (k : string) (v v' : V) (d : list (string * V)) :
  odict.set k v (odict.set k v' d) = odict.set k v d.
Proof.
  induction d as [|[k0 v0] d IH]; simpl.
  - by rewrite bool_decide_eq_true_2.
  - case_bool_decide; simpl.
    + by rewrite bool_decide_eq_true_2.
    + rewrite bool_decide_eq_false_2 by done. by rewrite IH.
Qed.

Lemma recipients_all (g : gmap string (gset string)) (room : string) :
  recipients g room None = members g room.
Proof. unfold recipients, skipped. set_solver. Qed.

(** ** The registry operations *)

(** The expression [datetime.timezone.utc] cannot be evaluated: the class
    has no attribute of that name. *)
Lemma datetime_timezone_utc_raises (s : store) :
  datetime_timezone_utc s =
    (inl (AttributeError "datetime.datetime" "timezone"), s, []).
Proof. reflexivity. Qed.

(** C1 (the code departs from the claim).  Whatever the request body, the
    drawn identifier, the clock and the store, [create_room] raises
    [AttributeError] while computing [expires_at] on line 75: it stores
    no room, leaves the store as it was, emits nothing, and the request
    ends with status 500.  The claim says that creation always succeeds
    and stores an active room expiring two hours after its creation. *)
Theorem create_room_always_raises (uuid4 : string) (clock1 clock2 : Z)
    (room_data : RoomCreate) (s : store) :
  create_room uuid4 clock1 clock2 room_data s =
    (inl (AttributeError "datetime.datetime" "timezone"), s, [])
  ∧ http_status (result_of (create_room uuid4 clock1 clock2 room_data s)) = 500.
Proof. split; reflexivity. Qed.

(** A room identifier that is not in the registry is answered with 404
    and the store is left alone. *)
Lemma get_room_not_found (clock : Z) (room_id : string) (s : store) :
  active_rooms s !! room_id = None →
  get_room clock room_id s = (inl (HTTPException 404 "Room not found"), s, []).
Proof. intros Hnone. unfold get_room, bind, reads, raise. by rewrite Hnone. Qed.

(** With a naive [expiresAt], a stored room is returned as long as the
    clock has not passed it. *)
Lemma get_room_naive_live (clock : Z) (room_id : string) (s : store)
    (info : room_info) :
  active_rooms s !! room_id = Some info →
  datetime.tzinfo (expiresAt info) = None →
  clock ≤ datetime.wall (expiresAt info) →
  get_room clock room_id s = (inr (RoomResponse_of info), s, []).
Proof.
  intros Hin Hnaive Hle. unfold get_room, bind, reads, lift. rewrite Hin.
  unfold datetime.gt, datetime.fromisoformat. simpl. rewrite Hnaive.
  rewrite bool_decide_eq_false_2 by lia. done.
Qed.

(** With a naive [expiresAt] that the clock has passed, the stored status
    becomes "expired", whatever it was, and the answer is 410. *)
Lemma get_room_naive_expired (clock : Z) (room_id : string) (s : store)
    (info : room_info) :
  active_rooms s !! room_id = Some info →
  datetime.tzinfo (expiresAt info) = None →
  datetime.wall (expiresAt info) < clock →
  get_room clock room_id s =
    (inl (HTTPException 410 "Room has expired"),
     with_active_rooms (insert room_id (set_status "expired" info)) s, []).
Proof.
  intros Hin Hnaive Hlt. unfold get_room, bind, reads, lift. rewrite Hin.
  unfold datetime.gt, datetime.fromisoformat. simpl. rewrite Hnaive.
  rewrite bool_decide_eq_true_2 by lia. done.
Qed.

(** C2 (the code departs from the claim).  A stored room whose
    [expiresAt] carries a UTC offset, as the text written on line 81 from
    [datetime.now(tz)] does, cannot be looked up: the comparison of line
    101 between the naive [utcnow()] and the aware [expires_at] raises
    [TypeError] at every clock reading, before and after the expiry, so
    the request ends with status 500 rather than with the room or with
    410, and the stored status is not changed.  The claim says a present
    room is returned until it expires and answered with 410 afterwards. *)
Theorem get_room_aware_expiry_raises (clock : Z) (room_id : string) (s : store)
    (info : room_info) (offset : Z) :
  active_rooms s !! room_id = Some info →
  datetime.tzinfo (expiresAt info) = Some offset →
  get_room clock room_id s =
    (inl (TypeError "can't compare offset-naive and offset-aware datetimes"), s, [])
  ∧ http_status (result_of (get_room clock room_id s)) = 500.
Proof.
  intros Hin Haware.
  assert (get_room clock room_id s =
    (inl (TypeError "can't compare offset-naive and offset-aware datetimes"), s, []))
    as Heq.
  { unfold get_room, bind, reads, lift. rewrite Hin.
    unfold datetime.gt, datetime.fromisoformat. simpl. by rewrite Haware. }
  split; [done | by rewrite Heq].
Qed.

(** A room written from [datetime.now(tz)] sits in the registry, and
    looking it up raises at a clock reading well before its expiry. *)
Lemma get_room_aware_expiry_raises_witness :
  active_rooms (ex_store ex_room_aware) !! "room-1" = Some ex_room_aware
  ∧ datetime.tzinfo (expiresAt ex_room_aware) = Some 0
  ∧ get_room 1 "room-1" (ex_store ex_room_aware) =
      (inl (TypeError "can't compare offset-naive and offset-aware datetimes"),
       ex_store ex_room_aware, []).
Proof.
  split; [by vm_compute | split; [reflexivity|]].
  apply (get_room_aware_expiry_raises 1 "room-1" (ex_store ex_room_aware)
           ex_room_aware 0); by vm_compute.
Defined.

(** ** The join event *)

Lemma members_insert_eq (g : gmap string (gset string)) (room : string)
    (m : gset string) :
  members (<[room := m]> g) room = m.
Proof. unfold members. by rewrite lookup_insert_eq. Qed.

Lemma recipients_enter (g : gmap string (gset string)) (rid sid : string) :
  recipients (<[rid := {[ sid ]} ∪ members g rid]> g) rid (Some sid)
  = members g rid ∖ {[ sid ]}.
Proof. unfold recipients, skipped. rewrite members_insert_eq. set_solver. Qed.

Lemma recipients_entered (lib : sio_library) (g : gmap string (gset string))
    (rid sid : string) :
  recipients (entered lib sid rid g) rid (Some sid) = members g rid ∖ {[ sid ]}.
Proof. destruct lib; simpl; [apply recipients_enter | done]. Qed.

Lemma members_entered (lib : sio_library) (sid rid r x : string)
    (g : gmap string (gset string)) :
  x ∈ members (entered lib sid rid g) r → x ∈ members g r ∨ (x = sid ∧ r = rid).
Proof.
  destruct lib; simpl; [|by left].
  destruct (decide (rid = r)) as [<-|Hr].
  - rewrite members_insert_eq, elem_of_union, elem_of_singleton.
    intros [->|?]; [by right | by left].
  - unfold members. rewrite lookup_insert_ne by done. by left.
Qed.

Lemma join_present (lib : sio_library) (sid : string) (data : event_data)
    (s : store) (rid : string) :
  d_roomId data = Some rid → rid ≠ "" → is_Some (active_rooms s !! rid) →
  join lib sid data s =
    (inr (), joined lib sid rid s,
     [ mk_emission "user_joined" [("userId", d_userId data); ("role", d_role data)]
         rid (Some sid) (members (sio_rooms s) rid ∖ {[ sid ]}) ]).
Proof.
  intros Hrid Hne [info Hin].
  unfold join, bind, reads, sio_emit. rewrite Hrid.
  rewrite truthy_Some by done. simpl.
  rewrite bool_decide_eq_false_2 by (by rewrite Hin).
  unfold joined, connections_of, with_room_connections.
  destruct lib;
    unfold not_awaited, sio_enter_room, modify, with_sio_rooms, ret, entered;
    simpl;
    (destruct (odict.lookup rid (room_connections s)) as [l|] eqn:Hl; simpl;
     [ rewrite ?Hl | rewrite ?odict_lookup_set_eq, ?odict_set_set ]);
    by rewrite ?recipients_enter.
Qed.

Lemma join_absent (lib : sio_library) (sid : string) (data : event_data) (s : store) :
  truthy (d_roomId data) = false
  ∨ (∃ rid, d_roomId data = Some rid ∧ active_rooms s !! rid = None) →
  join lib sid data s =
    (inr (), s,
     [ mk_emission "error" [("message", PyStr "Room not found")] sid None
         (members (sio_rooms s) sid) ]).
Proof.
  intros Hcase. unfold join, bind, reads, sio_emit.
  destruct (d_roomId data) as [rid|] eqn:Hrid; simpl;
    [|by rewrite recipients_all].
  destruct Hcase as [Hfalsy|(rid' & [= <-] & Hnone)].
  - simpl in Hfalsy. rewrite Hfalsy. simpl. by rewrite recipients_all.
  - rewrite (bool_decide_eq_true_2 _ Hnone), orb_true_r.
    by rewrite recipients_all.
Qed.

(** [join] never writes to the registry. *)
Lemma join_active_rooms (lib : sio_library)
    (sid : string) (data : event_data) (s : store) :
  active_rooms (store_of (join lib sid data s)) = active_rooms s.
Proof.
  destruct (d_roomId data) as [rid|] eqn:Hrid.
  - destruct (decide (rid = "")) as [->|Hne].
    + rewrite join_absent; [done|]. left. by rewrite Hrid.
    + destruct (active_rooms s !! rid) as [info|] eqn:Hin.
      * by rewrite (join_present _ _ _ _ rid).
      * rewrite join_absent; [done|]. right. by exists rid.
  - rewrite join_absent; [done|]. left. by rewrite Hrid.
Qed.

(** C5.  A join whose [roomId] is missing, empty, or not a key of the
    registry returns normally, leaves the whole store (registry,
    directory and broadcast groups) as it was, and makes exactly one
    emission: [error] with the message "Room not found", addressed to the
    sender's own handle with nobody skipped.  Nothing is emitted to a
    room, and when the group of that handle holds the sender alone, as
    the server sets it up on connect, the sender is the only recipient. *)
Theorem join_unknown_room_errors (lib : sio_library) (sid : string)
    (data : event_data) (s : store) :
  truthy (d_roomId data) = false
  ∨ (∃ rid, d_roomId data = Some rid ∧ active_rooms s !! rid = None) →
  result_of (join lib sid data s) = inr ()
  ∧ store_of (join lib sid data s) = s
  ∧ emitted (join lib sid data s) =
      [ mk_emission "error" [("message", PyStr "Room not found")] sid None
          (recipients (sio_rooms s) sid None) ]
  ∧ (members (sio_rooms s) sid = {[ sid ]} →
     ∀ e, e ∈ emitted (join lib sid data s) → em_to e = {[ sid ]}).
Proof.
  intros Hcase. rewrite (join_absent _ _ _ _ Hcase), recipients_all.
  repeat split. intros Hown e. unfold emitted. simpl.
  rewrite list_elem_of_singleton. intros ->. done.
Qed.

Lemma join_unknown_room_errors_witness :
  store_of (join coroutines "a" (ex_event None) ex_store_two_peers)
  = ex_store_two_peers
  ∧ (∀ e, e ∈ emitted (join coroutines "a" (ex_event (Some "room-9"))
                         ex_store_two_peers) →
       em_to e = {[ "a" ]}).
Proof.
  split.
  - apply (join_unknown_room_errors coroutines "a" (ex_event None)
             ex_store_two_peers).
    by left.
  - apply (join_unknown_room_errors coroutines "a" (ex_event (Some "room-9"))
             ex_store_two_peers).
    + right. exists "room-9". split; [reflexivity | by vm_compute].
    + by vm_compute.
Defined.

(** C10.  For a room that is in the registry under a non-empty
    identifier, [join] succeeds whatever the room's [status] and
    [expiresAt] are (the handler reads neither, nor the clock), and under
    either library: the session's handle is appended to the room's
    connection list, [user_joined] goes to the room with the sender
    skipped, nobody is taken out of the room's broadcast group, and the
    registry, hence the room's status, expiry and every other field, is
    exactly what it was.  The group table afterwards is the one the call
    of line 222 leaves. *)
Theorem join_ignores_expiry (lib : sio_library) (sid : string)
    (data : event_data) (s : store) (rid : string) (info : room_info) :
  d_roomId data = Some rid → rid ≠ "" →
  active_rooms s !! rid = Some info →
  result_of (join lib sid data s) = inr ()
  ∧ active_rooms (store_of (join lib sid data s)) = active_rooms s
  ∧ active_rooms (store_of (join lib sid data s)) !! rid = Some info
  ∧ sid ∈ connections_of (store_of (join lib sid data s)) rid
  ∧ sio_rooms (store_of (join lib sid data s)) = entered lib sid rid (sio_rooms s)
  ∧ (∀ x, x ∈ members (sio_rooms s) rid →
          x ∈ members (sio_rooms (store_of (join lib sid data s))) rid)
  ∧ emitted (join lib sid data s) =
      [ mk_emission "user_joined" [("userId", d_userId data); ("role", d_role data)]
          rid (Some sid) (members (sio_rooms s) rid ∖ {[ sid ]}) ].
Proof.
  intros Hrid Hne Hin. rewrite (join_present _ _ _ _ rid) by eauto.
  unfold result_of, store_of, emitted, joined, connections_of. simpl.
  rewrite odict_lookup_set_eq. simpl. split_and!; try done.
  - rewrite elem_of_app, list_elem_of_singleton. by right.
  - intros x Hx. destruct lib; simpl; [|done].
    rewrite members_insert_eq. set_solver.
Qed.

(** An ended room whose expiry lies in the past still admits a join, and
    keeps its status. *)
Lemma join_ignores_expiry_witness :
  status_in (store_of (join coroutines "a" (ex_event (Some "room-1"))
                         (ex_store (ex_room_naive "ended")))) "room-1" = Some "ended"
  ∧ "a" ∈ connections_of
            (store_of (join coroutines "a" (ex_event (Some "room-1"))
                         (ex_store (ex_room_naive "ended")))) "room-1".
Proof.
  pose proof (join_ignores_expiry coroutines "a" (ex_event (Some "room-1"))
                (ex_store (ex_room_naive "ended")) "room-1" (ex_room_naive "ended")
                eq_refl ltac:(discriminate) ltac:(by vm_compute)) as H.
  split.
  - unfold status_in. by rewrite (proj1 (proj2 (proj2 H))).
  - exact (proj1 (proj2 (proj2 (proj2 H)))).
Defined.

(** C3 (amended).  The directory keeps a list, not a set: a second join
    of the same handle to the same room appends a second occurrence, so
    the room's connection list after the duplicate add is the list after
    the first add followed by the handle, and the directory state is not
    the one after the first add.  What the duplicate add leaves alone is
    the set of handles listed for the room, the lists of all other rooms,
    the registry and the broadcast groups; [user_joined] is broadcast
    again. *)
Theorem join_again_appends (lib : sio_library) (sid : string)
    (data : event_data) (s : store) (rid : string) :
  d_roomId data = Some rid → rid ≠ "" → is_Some (active_rooms s !! rid) →
  let s1 := store_of (join lib sid data s) in
  let s2 := store_of (join lib sid data s1) in
  connections_of s2 rid = connections_of s1 rid ++ [sid]
  ∧ room_connections s2 ≠ room_connections s1
  ∧ (∀ x, x ∈ connections_of s2 rid ↔ x ∈ connections_of s1 rid)
  ∧ (∀ r, r ≠ rid →
       odict.lookup r (room_connections s2) = odict.lookup r (room_connections s1))
  ∧ active_rooms s2 = active_rooms s1
  ∧ sio_rooms s2 = sio_rooms s1
  ∧ emitted (join lib sid data s1) =
      [ mk_emission "user_joined" [("userId", d_userId data); ("role", d_role data)]
          rid (Some sid) (members (sio_rooms s1) rid ∖ {[ sid ]}) ].
Proof.
  intros Hrid Hne Hin s1 s2.
  assert (s1 = joined lib sid rid s) as Hs1.
  { unfold s1. by rewrite (join_present _ _ _ _ rid). }
  assert (is_Some (active_rooms s1 !! rid)) as Hin1 by (by rewrite Hs1).
  assert (s2 = joined lib sid rid s1) as Hs2.
  { unfold s2. by rewrite (join_present _ _ _ _ rid). }
  assert (connections_of s2 rid = connections_of s1 rid ++ [sid]) as Hconn.
  { rewrite Hs2. unfold joined at 1, connections_of at 1. simpl.
    by rewrite odict_lookup_set_eq. }
  split; [done|]. split; [|split; [|split; [|split; [|split]]]].
  - intros Heq. apply (f_equal (λ c, length (default [] (odict.lookup rid c)))) in Heq.
    fold (connections_of s2 rid) (connections_of s1 rid) in Heq.
    rewrite Hconn, length_app in Heq. simpl in Heq. lia.
  - intros x. rewrite Hconn, elem_of_app, list_elem_of_singleton.
    split; [|by left]. intros [?| ->]; [done|].
    rewrite Hs1. unfold joined, connections_of. simpl.
    rewrite odict_lookup_set_eq. simpl.
    rewrite elem_of_app, list_elem_of_singleton. by right.
  - intros r Hr. rewrite Hs2. unfold joined at 1. simpl.
    by rewrite odict_lookup_set_ne.
  - by rewrite Hs2.
  - rewrite Hs2, Hs1. unfold joined. simpl. destruct lib; simpl; [|done].
    rewrite members_insert_eq, insert_insert_eq. f_equal. set_solver.
  - by rewrite (join_present _ _ _ _ rid).
Qed.

Lemma join_again_appends_witness :
  connections_of (ex_store_joined_twice coroutines) "room-1" = ["a"; "a"].
Proof.
  apply (join_again_appends coroutines "a" (ex_event (Some "room-1"))
           (ex_store (ex_room_naive "active")) "room-1");
    [reflexivity | discriminate | eexists; by vm_compute].
Defined.

(** C3 (counterexample).  After session "a" has joined "room-1", joining
    it again gives a different store: the room's list is ["a"; "a"].
    This is so under either library. *)
Lemma join_twice_not_idempotent :
  (let s1 := store_of (join plain_methods "a" (ex_event (Some "room-1"))
                         (ex_store (ex_room_naive "active"))) in
   store_of (join plain_methods "a" (ex_event (Some "room-1")) s1) ≠ s1)
  ∧ (let s1 := store_of (join coroutines "a" (ex_event (Some "room-1"))
                           (ex_store (ex_room_naive "active"))) in
     store_of (join coroutines "a" (ex_event (Some "room-1")) s1) ≠ s1).
Proof.
  split; intros s1 Heq; apply (f_equal room_connections) in Heq;
    vm_compute in Heq; discriminate Heq.
Qed.

(** ** Relay events: offer, answer, candidate *)

Lemma relay_spec (event key : string) (body : pyval) (sid : string)
    (data : event_data) (s : store) :
  relay event key body sid data s =
    match d_roomId data with
    | Some rid =>
        if bool_decide (rid ≠ "") then
          (inr (), s,
           [ mk_emission event [("from", d_from data); (key, body)] rid (Some sid)
               (members (sio_rooms s) rid ∖ {[ sid ]}) ])
        else (inr (), s, [])
    | None => (inr (), s, [])
    end.
Proof.
  unfold relay. destruct (d_roomId data) as [rid|]; [|done]. simpl.
  by case_bool_decide.
Qed.

(** C6.  For [offer], [answer] and [candidate] with a non-empty [roomId]
    the router makes exactly one emission, of the same event name, with
    payload [from] (the value the sender supplied) and [sdp] (resp.
    [candidate]), to the room with the sender skipped: it reaches every
    session of the room's broadcast group except the sender.  The store
    (registry, directory, groups) is not changed.  With [roomId] missing
    or empty the handler returns without emission or change. *)
Theorem relay_events (sid : string) (data : event_data) (s : store) :
  (∀ rid, d_roomId data = Some rid → rid ≠ "" →
     offer sid data s =
       (inr (), s,
        [ mk_emission "offer" [("from", d_from data); ("sdp", d_sdp data)]
            rid (Some sid) (members (sio_rooms s) rid ∖ {[ sid ]}) ])
     ∧ answer sid data s =
       (inr (), s,
        [ mk_emission "answer" [("from", d_from data); ("sdp", d_sdp data)]
            rid (Some sid) (members (sio_rooms s) rid ∖ {[ sid ]}) ])
     ∧ candidate sid data s =
       (inr (), s,
        [ mk_emission "candidate"
            [("from", d_from data); ("candidate", d_candidate data)]
            rid (Some sid) (members (sio_rooms s) rid ∖ {[ sid ]}) ])
     ∧ (∀ x, x ∈ members (sio_rooms s) rid ∖ {[ sid ]}
             ↔ x ∈ members (sio_rooms s) rid ∧ x ≠ sid))
  ∧ (truthy (d_roomId data) = false →
     offer sid data s = (inr (), s, [])
     ∧ answer sid data s = (inr (), s, [])
     ∧ candidate sid data s = (inr (), s, [])).
Proof.
  unfold offer, answer, candidate. rewrite !relay_spec. split.
  - intros rid -> Hne. rewrite bool_decide_eq_true_2 by done.
    repeat split; set_solver.
  - intros [-> | ->]%truthy_false; [done|].
    by rewrite bool_decide_eq_false_2 by tauto.
Qed.

Lemma relay_events_witness :
  candidate "a" (ex_event (Some "room-1")) ex_store_two_peers =
    (inr (), ex_store_two_peers,
     [ mk_emission "candidate"
         [("from", PyStr "alice");
          ("candidate",
           PyDict [("candidate", "candidate:1 1 udp 1 192.0.2.1 9 typ host")])]
         "room-1" (Some "a")
         (members (sio_rooms ex_store_two_peers) "room-1" ∖ {[ "a" ]}) ])
  ∧ offer "a" (ex_event (Some "")) ex_store_two_peers =
      (inr (), ex_store_two_peers, []).
Proof.
  split.
  - apply (proj1 (relay_events "a" (ex_event (Some "room-1")) ex_store_two_peers)
             "room-1"); [reflexivity | discriminate].
  - apply (proj2 (relay_events "a" (ex_event (Some "")) ex_store_two_peers)).
    reflexivity.
Defined.

(** Two sessions are in a room and "a" sends a candidate: "b" receives
    it under the [from] that "a" supplied, and "a" does not. *)
Example candidate_reaches_the_peer_only :
  emitted (candidate "a" (ex_event (Some "room-1")) ex_store_two_peers) =
    [ mk_emission "candidate"
        [("from", PyStr "alice");
         ("candidate",
          PyDict [("candidate", "candidate:1 1 udp 1 192.0.2.1 9 typ host")])]
        "room-1" (Some "a") {[ "b" ]} ].
Proof. by vm_compute. Qed.

(** ** The end event *)

Lemma end_spec (sid : string) (data : event_data) (s : store) (rid : string) :
  d_roomId data = Some rid → rid ≠ "" →
  end_ sid data s =
    (inr (),
     match active_rooms s !! rid with
     | Some info => with_active_rooms (insert rid (set_status "ended" info)) s
     | None => s
     end,
     [ mk_emission "call_ended" [("reason", d_reason data)] rid None
         (members (sio_rooms s) rid) ]).
Proof.
  intros Hrid Hne. unfold end_, bind, reads, modify, sio_emit. rewrite Hrid.
  rewrite truthy_Some by done. simpl.
  destruct (active_rooms s !! rid) as [info|]; simpl; by rewrite recipients_all.
Qed.

Lemma end_dropped (sid : string) (data : event_data) (s : store) :
  truthy (d_roomId data) = false → end_ sid data s = (inr (), s, []).
Proof.
  intros [Hd | Hd]%truthy_false; unfold end_; by rewrite Hd.
Qed.

(** C8.  For [end] with a non-empty [roomId]: when the room is in the
    registry its status becomes "ended" whatever it was, every other
    field and every other room staying as they were; when it is absent
    the registry is unchanged; the directory and the groups are never
    touched; running the same event again changes nothing more.  Exactly
    one emission is made, [call_ended] with the supplied [reason], to the
    room with nobody skipped: it reaches every session of the room's
    broadcast group, the sender included when it is in the group. *)
Theorem end_marks_ended_and_notifies_all (sid : string) (data : event_data)
    (s : store) (rid : string) :
  d_roomId data = Some rid → rid ≠ "" →
  let s' := store_of (end_ sid data s) in
  result_of (end_ sid data s) = inr ()
  ∧ (∀ info, active_rooms s !! rid = Some info →
       active_rooms s' = <[rid := set_status "ended" info]> (active_rooms s)
       ∧ status_in s' rid = Some "ended")
  ∧ (active_rooms s !! rid = None → active_rooms s' = active_rooms s)
  ∧ room_connections s' = room_connections s
  ∧ sio_rooms s' = sio_rooms s
  ∧ store_of (end_ sid data s') = s'
  ∧ emitted (end_ sid data s) =
      [ mk_emission "call_ended" [("reason", d_reason data)] rid None
          (members (sio_rooms s) rid) ]
  ∧ (sid ∈ members (sio_rooms s) rid →
     ∀ e, e ∈ emitted (end_ sid data s) → sid ∈ em_to e).
Proof.
  intros Hrid Hne s'. unfold s'. rewrite !(end_spec _ _ _ rid) by done.
  unfold result_of, store_of, emitted, status_in. simpl.
  destruct (active_rooms s !! rid) as [info|] eqn:Hin; simpl.
  - rewrite lookup_insert_eq. simpl. split_and!; try done.
    + by intros ? [= <-].
    + unfold with_active_rooms. simpl. by rewrite insert_insert_eq.
    + by intros Hm e ->%list_elem_of_singleton.
  - rewrite Hin. split_and!; try done.
    by intros Hm e ->%list_elem_of_singleton.
Qed.

Lemma end_marks_ended_and_notifies_all_witness :
  status_in (store_of (end_ "a" (ex_event (Some "room-1")) ex_store_two_peers))
    "room-1" = Some "ended"
  ∧ (∀ e, e ∈ emitted (end_ "a" (ex_event (Some "room-1")) ex_store_two_peers) →
       "a" ∈ em_to e).
Proof.
  pose proof (end_marks_ended_and_notifies_all "a" (ex_event (Some "room-1"))
                ex_store_two_peers "room-1" eq_refl ltac:(discriminate)) as H.
  split.
  - apply (proj1 (proj2 H) (ex_room_naive "active")). by vm_compute.
  - apply (proj2 (proj2 (proj2 (proj2 (proj2 (proj2 (proj2 H))))))).
    by vm_compute.
Defined.

(** ** The leave event *)

Lemma occurrences_0 (x : string) (l : list string) :
  occurrences x l = 0%nat ↔ x ∉ l.
Proof.
  unfold occurrences. rewrite length_zero_iff_nil. split.
  - intros Hnil Hx.
    assert (x ∈ filter (λ y, y = x) l) as Hf by (by apply list_elem_of_filter).
    rewrite Hnil in Hf. by apply not_elem_of_nil in Hf.
  - intros Hx. induction l as [|y l IH]; [done|].
    apply not_elem_of_cons in Hx as [Hxy Hx].
    rewrite filter_cons_False by done. by apply IH.
Qed.

Lemma list_remove_first_once (x : string) (l : list string) :
  x ∉ list_remove_first x l ↔ (occurrences x l ≤ 1)%nat.
Proof.
  induction l as [|y l IH]; simpl.
  - split; [unfold occurrences; simpl; lia | intros _; apply not_elem_of_nil].
  - unfold occurrences in *. case_bool_decide as Hy.
    + rewrite filter_cons_True by done. simpl.
      rewrite <- occurrences_0. unfold occurrences. lia.
    + rewrite filter_cons_False by done. rewrite not_elem_of_cons, IH.
      split; [by intros [_ ?] | by split].
Qed.

Lemma members_leave_group_eq (sid room : string) (g : gmap string (gset string)) :
  members (leave_group sid room g) room = members g room ∖ {[ sid ]}.
Proof.
  unfold leave_group, members.
  destruct (g !! room) as [m|] eqn:Hm; simpl.
  - case_bool_decide as He.
    + by rewrite lookup_delete_eq, He.
    + by rewrite lookup_insert_eq.
  - rewrite Hm. simpl. set_solver.
Qed.

Lemma members_leave_group_ne (sid room room' : string)
    (g : gmap string (gset string)) :
  room ≠ room' → members (leave_group sid room g) room' = members g room'.
Proof.
  intros Hne. unfold leave_group, members.
  destruct (g !! room) as [m|]; [|done].
  case_bool_decide; by rewrite ?lookup_delete_ne, ?lookup_insert_ne.
Qed.

Lemma members_departed_eq (lib : sio_library) (sid rid : string)
    (g : gmap string (gset string)) :
  members (departed lib sid rid g) rid =
    match lib with
    | plain_methods => members g rid ∖ {[ sid ]}
    | coroutines => members g rid
    end.
Proof. destruct lib; simpl; [apply members_leave_group_eq | done]. Qed.

Lemma members_departed_ne (lib : sio_library) (sid rid r : string)
    (g : gmap string (gset string)) :
  rid ≠ r → members (departed lib sid rid g) r = members g r.
Proof. intros Hne. destruct lib; simpl; [by apply members_leave_group_ne | done]. Qed.

Lemma members_departed_other (lib : sio_library) (sid rid r x : string)
    (g : gmap string (gset string)) :
  x ≠ sid → x ∈ members (departed lib sid rid g) r ↔ x ∈ members g r.
Proof.
  intros Hx. destruct (decide (rid = r)) as [<-|Hr].
  - rewrite members_departed_eq. destruct lib; set_solver.
  - by rewrite members_departed_ne.
Qed.

Lemma members_departed_sub (lib : sio_library) (sid rid r x : string)
    (g : gmap string (gset string)) :
  x ∈ members (departed lib sid rid g) r → x ∈ members g r.
Proof.
  destruct (decide (rid = r)) as [<-|Hr].
  - rewrite members_departed_eq. destruct lib; set_solver.
  - by rewrite members_departed_ne.
Qed.

Lemma leave_spec (lib : sio_library) (sid : string) (data : event_data)
    (s : store) (rid : string) :
  d_roomId data = Some rid → rid ≠ "" →
  leave lib sid data s =
    (inr (),
     mk_store (active_rooms s) (without sid rid (room_connections s))
       (departed lib sid rid (sio_rooms s)),
     [ mk_emission "user_left" [("userId", d_userId data)] rid None
         (members (departed lib sid rid (sio_rooms s)) rid) ]).
Proof.
  intros Hrid Hne.
  unfold leave, bind, reads, sio_emit, without.
  rewrite Hrid, truthy_Some by done. destruct s as [rooms conns groups]. simpl.
  destruct lib;
    unfold not_awaited, sio_leave_room, modify, with_sio_rooms, ret, departed;
    simpl;
    (destruct (odict.lookup rid conns) as [l|]; simpl;
     [case_bool_decide; simpl|]); rewrite ?recipients_all; done.
Qed.

Lemma leave_dropped (lib : sio_library) (sid : string) (data : event_data) (s : store) :
  truthy (d_roomId data) = false → leave lib sid data s = (inr (), s, []).
Proof.
  intros [Hd | Hd]%truthy_false; unfold leave; by rewrite Hd.
Qed.

Lemma without_lookup_eq (sid rid : string) (conns : list (string * list string)) :
  default [] (odict.lookup rid (without sid rid conns))
  = list_remove_first sid (default [] (odict.lookup rid conns)).
Proof.
  unfold without. destruct (odict.lookup rid conns) as [l|] eqn:Hl; simpl.
  - case_bool_decide.
    + by rewrite odict_lookup_set_eq.
    + rewrite Hl. simpl. by rewrite list_remove_first_notin.
  - by rewrite Hl.
Qed.

Lemma without_lookup_ne (sid rid r : string) (conns : list (string * list string)) :
  rid ≠ r → odict.lookup r (without sid rid conns) = odict.lookup r conns.
Proof.
  intros Hne. unfold without. destruct (odict.lookup rid conns) as [l|]; [|done].
  case_bool_decide; [by rewrite odict_lookup_set_ne | done].
Qed.

Lemma without_absent (sid rid : string) (conns : list (string * list string)) :
  sid ∉ default [] (odict.lookup rid conns) → without sid rid conns = conns.
Proof.
  unfold without. destruct (odict.lookup rid conns) as [l|]; simpl; [|done].
  intros Hl. by rewrite bool_decide_eq_false_2.
Qed.

(** C7 (amended).  For [leave] with a non-empty [roomId], under either
    library: the room's connection list loses the first occurrence of the
    handle, so that a handle listed there once is no longer listed (and
    the directory is left alone when the room or the handle is absent);
    the registry is unchanged; no other session is taken out of or put
    into a broadcast group, and the groups of the other rooms are not
    touched; exactly one emission is made, [user_left] with the supplied
    [userId], to the room with nobody skipped, and it reaches exactly the
    sessions that are in the room's broadcast group at that moment.  The
    group table afterwards is the one the call of line 308 leaves. *)
Theorem leave_removes_and_notifies (lib : sio_library) (sid : string)
    (data : event_data) (s : store) (rid : string) :
  d_roomId data = Some rid → rid ≠ "" →
  let s' := store_of (leave lib sid data s) in
  result_of (leave lib sid data s) = inr ()
  ∧ active_rooms s' = active_rooms s
  ∧ connections_of s' rid = list_remove_first sid (connections_of s rid)
  ∧ ((occurrences sid (connections_of s rid) ≤ 1)%nat → sid ∉ connections_of s' rid)
  ∧ (sid ∉ connections_of s rid → room_connections s' = room_connections s)
  ∧ (∀ r, r ≠ rid →
       odict.lookup r (room_connections s') = odict.lookup r (room_connections s))
  ∧ sio_rooms s' = departed lib sid rid (sio_rooms s)
  ∧ (∀ r, r ≠ rid → members (sio_rooms s') r = members (sio_rooms s) r)
  ∧ (∀ x, x ≠ sid →
       x ∈ members (sio_rooms s') rid ↔ x ∈ members (sio_rooms s) rid)
  ∧ emitted (leave lib sid data s) =
      [ mk_emission "user_left" [("userId", d_userId data)] rid None
          (members (sio_rooms s') rid) ].
Proof.
  intros Hrid Hne s'. unfold s'. rewrite (leave_spec _ _ _ _ rid) by done.
  unfold result_of, store_of, emitted, connections_of. simpl.
  rewrite without_lookup_eq. split_and!; try done.
  - by intros ?%list_remove_first_once.
  - apply without_absent.
  - intros r Hr. by apply without_lookup_ne.
  - intros r Hr. by apply members_departed_ne.
  - intros x Hx. by apply members_departed_other.
Qed.

Lemma leave_removes_and_notifies_witness :
  "a" ∉ connections_of
          (store_of (leave coroutines "a" (ex_event (Some "room-1"))
                       ex_store_two_peers))
          "room-1".
Proof.
  pose proof (leave_removes_and_notifies coroutines "a" (ex_event (Some "room-1"))
                ex_store_two_peers "room-1" eq_refl ltac:(discriminate)) as H.
  apply (proj1 (proj2 (proj2 (proj2 H)))). vm_compute. lia.
Defined.

(** C7 (counterexample).  Session "a" is listed twice in "room-1"; after
    its [leave] the room's connection list still holds it.  This is so
    under either library. *)
Lemma leave_keeps_duplicate_handle :
  "a" ∈ connections_of
          (store_of (leave plain_methods "a" (ex_event (Some "room-1"))
                       (ex_store_joined_twice plain_methods)))
          "room-1"
  ∧ "a" ∈ connections_of
            (store_of (leave coroutines "a" (ex_event (Some "room-1"))
                         (ex_store_joined_twice coroutines)))
            "room-1".
Proof. split; vm_compute; apply list_elem_of_here. Qed.

(** ** Transport disconnect *)

Lemma disconnect_items_spec (sid : string) (g : gmap string (gset string))
    (items : list (string * list string)) :
  disconnect_items sid g items =
    (map (λ p, (p.1, list_remove_first sid p.2)) items,
     map (λ p, leave_notice sid g p.1) (filter (λ p, sid ∈ p.2) items)).
Proof.
  induction items as [|[room_id connections] rest IH]; simpl; [done|].
  rewrite IH. case_bool_decide as Hin.
  - by rewrite filter_cons_True by done.
  - rewrite filter_cons_False by done.
    by rewrite list_remove_first_notin.
Qed.

Lemma disconnect_spec (sid : string) (s : store) :
  disconnect sid s =
    (inr (),
     mk_store (active_rooms s)
       (map (λ p, (p.1, list_remove_first sid p.2)) (room_connections s))
       (sio_rooms s),
     map (λ p, leave_notice sid (sio_rooms s) p.1)
       (filter (λ p, sid ∈ p.2) (room_connections s))).
Proof. unfold disconnect. by rewrite disconnect_items_spec. Qed.

(** After the server has finished a disconnect, the session is in no
    broadcast group. *)
Lemma server_disconnect_groups (sid room : string) (s : store) :
  sid ∉ members (sio_rooms (store_of (server_disconnect sid s))) room.
Proof.
  unfold server_disconnect, bind, modify. rewrite disconnect_spec.
  unfold store_of, members. simpl. rewrite lookup_omap.
  destruct (sio_rooms s !! room) as [m|]; simpl; [|set_solver].
  case_bool_decide; simpl; set_solver.
Qed.

(** C9 (amended).  When a session disconnects, every room whose
    connection list holds its handle loses one occurrence of it, the
    first, so that a handle listed at most once per room is afterwards
    listed in no room, however many rooms listed it; the other lists, the
    registry and the groups are not touched by the handler.  For each
    room that listed the handle, in the directory's order, the router
    emits [leave] with [userId] equal to the handle to that room with the
    disconnected session skipped, and nothing else. *)
Theorem disconnect_removes_and_notifies (sid : string) (s : store) :
  let s' := store_of (disconnect sid s) in
  result_of (disconnect sid s) = inr ()
  ∧ room_connections s' =
      map (λ p, (p.1, list_remove_first sid p.2)) (room_connections s)
  ∧ (Forall (λ p, (occurrences sid p.2 ≤ 1)%nat) (room_connections s) →
     Forall (λ p, sid ∉ p.2) (room_connections s'))
  ∧ active_rooms s' = active_rooms s
  ∧ sio_rooms s' = sio_rooms s
  ∧ emitted (disconnect sid s) =
      map (λ p, mk_emission "leave" [("userId", PyStr sid)] p.1 (Some sid)
                  (members (sio_rooms s) p.1 ∖ {[ sid ]}))
        (filter (λ p, sid ∈ p.2) (room_connections s))
  ∧ (∀ e, e ∈ emitted (disconnect sid s) → sid ∉ em_to e).
Proof.
  intros s'. unfold s'. rewrite disconnect_spec.
  unfold result_of, store_of, emitted. simpl. split_and!; try done.
  - intros Hall. apply Forall_map. simpl.
    eapply Forall_impl; [exact Hall|]. intros p Hp. simpl.
    by apply list_remove_first_once.
  - intros e (p & -> & _)%list_elem_of_fmap. simpl. set_solver.
Qed.

Lemma disconnect_removes_and_notifies_witness :
  Forall (λ p, "a" ∉ p.2)
    (room_connections (store_of (disconnect "a" ex_store_two_rooms))).
Proof.
  apply (disconnect_removes_and_notifies "a" ex_store_two_rooms).
  repeat constructor; vm_compute; lia.
Defined.

(** A session listed in two rooms: both lose it, and each of the two is
    sent a [leave] that skips the session. *)
Example disconnect_two_rooms :
  room_connections (store_of (disconnect "a" ex_store_two_rooms))
    = [("room-1", ["b"]); ("room-2", []); ("room-3", ["b"])]
  ∧ emitted (disconnect "a" ex_store_two_rooms)
    = [ mk_emission "leave" [("userId", PyStr "a")] "room-1" (Some "a") {[ "b" ]};
        mk_emission "leave" [("userId", PyStr "a")] "room-2" (Some "a") ∅ ].
Proof. split; by vm_compute. Qed.

(** C9 (counterexample).  Session "a" is listed twice in "room-1"; after
    its disconnect the room's connection list still holds it.  This is so
    under either library. *)
Lemma disconnect_keeps_duplicate_handle :
  "a" ∈ connections_of
          (store_of (disconnect "a" (ex_store_joined_twice plain_methods))) "room-1"
  ∧ "a" ∈ connections_of
            (store_of (disconnect "a" (ex_store_joined_twice coroutines))) "room-1".
Proof. split; vm_compute; apply list_elem_of_here. Qed.

(** ** Status along a run *)

(** Every operation leaves the registry as it was, or overwrites the
    status of one stored room with "expired" or with "ended". *)
Lemma step_active_rooms (lib : sio_library) (s : store) (o : op) :
  active_rooms (step lib s o) = active_rooms s
  ∨ ∃ rid info st,
      active_rooms s !! rid = Some info
      ∧ (st = "expired" ∨ st = "ended")
      ∧ active_rooms (step lib s o) = <[rid := set_status st info]> (active_rooms s).
Proof.
  destruct o as [uuid4 c1 c2 rd | clock rid | sid | sid | sid d | sid d | sid d
                 | sid d | sid d | sid d]; simpl.
  - by left.
  - unfold get_room, bind, reads, lift, modify, raise.
    destruct (active_rooms s !! rid) as [info|] eqn:Hin; [|by left].
    destruct (datetime.gt _ _) as [e|[|]]; simpl; [by left | | by left].
    right. exists rid, info, "expired". eauto.
  - by left.
  - left. unfold server_disconnect, bind, modify. by rewrite disconnect_spec.
  - left. apply join_active_rooms.
  - left. unfold offer. rewrite relay_spec.
    destruct (d_roomId d); [case_bool_decide|]; done.
  - left. unfold answer. rewrite relay_spec.
    destruct (d_roomId d); [case_bool_decide|]; done.
  - left. unfold candidate. rewrite relay_spec.
    destruct (d_roomId d); [case_bool_decide|]; done.
  - left. destruct (truthy (d_roomId d)) eqn:Ht.
    + destruct (d_roomId d) as [rid|] eqn:Hrid; [|done].
      simpl in Ht. apply bool_decide_eq_true in Ht.
      by rewrite (leave_spec _ _ _ _ rid).
    + by rewrite leave_dropped.
  - destruct (truthy (d_roomId d)) eqn:Ht.
    + destruct (d_roomId d) as [rid|] eqn:Hrid; [|done].
      simpl in Ht. apply bool_decide_eq_true in Ht.
      rewrite (end_spec _ _ _ rid) by done. unfold store_of. simpl.
      destruct (active_rooms s !! rid) as [info|] eqn:Hin; [|by left].
      right. exists rid, info, "ended". eauto.
    + left. by rewrite end_dropped.
Qed.

Lemma step_status (lib : sio_library) (s : store) (o : op) (rid st : string) :
  status_in s rid = Some st →
  ∃ st', status_in (step lib s o) rid = Some st'
         ∧ (st' = st ∨ st' = "expired" ∨ st' = "ended").
Proof.
  intros Hst. unfold status_in in *.
  destruct (step_active_rooms lib s o) as [-> | (r & info & w & Hin & Hw & ->)].
  - exists st. eauto.
  - destruct (decide (r = rid)) as [->|Hne].
    + rewrite lookup_insert_eq. simpl. exists w. naive_solver.
    + rewrite lookup_insert_ne by done. exists st. eauto.
Qed.

(** X15.  On any store, whatever its time stamps, along any sequence of
    operations a room that is in the registry stays there, and its status
    is the one it had or "expired" or "ended": no operation writes
    "active", so a room that is "ended" or "expired" never becomes
    "active" again. *)
Theorem status_never_back_to_active (lib : sio_library) (ops : list op)
    (s : store) (rid st : string) :
  status_in s rid = Some st →
  ∃ st', status_in (run lib ops s) rid = Some st'
         ∧ (st' = st ∨ st' = "expired" ∨ st' = "ended")
         ∧ (st ≠ "active" → st' ≠ "active").
Proof.
  revert s st. unfold run.
  induction ops as [|o ops IH]; intros s st Hst; simpl.
  - exists st. eauto.
  - destruct (step_status lib s o rid st Hst) as (st1 & Hst1 & Hcase1).
    destruct (IH _ _ Hst1) as (st' & Hst' & Hcase & Hact).
    exists st'. split; [done|]. split.
    + destruct Hcase as [->|?]; [done | by right].
    + intros Hne. apply Hact. by destruct Hcase1 as [->|[->| ->]].
Qed.

Lemma status_never_back_to_active_witness :
  ∃ st', status_in
           (run coroutines
              [GetRoom 7200000001 "room-1"; End "a" (ex_event (Some "room-1"));
               GetRoom 7200000002 "room-1"]
              (ex_store (ex_room_naive "ended"))) "room-1" = Some st'
         ∧ (st' = "ended" ∨ st' = "expired" ∨ st' = "ended")
         ∧ ("ended" ≠ "active" → st' ≠ "active").
Proof.
  apply (status_never_back_to_active coroutines
           [GetRoom 7200000001 "room-1"; End "a" (ex_event (Some "room-1"));
            GetRoom 7200000002 "room-1"]
           (ex_store (ex_room_naive "ended")) "room-1" "ended").
  by vm_compute.
Defined.









(** The registry starts empty (line 28) and, since [create_room] stores
    nothing, no run ever puts a room into it. *)
Lemma run_registry_empty (lib : sio_library) (ops : list op) (s : store) :
  active_rooms s = ∅ → active_rooms (run lib ops s) = ∅.
Proof.
  revert s. unfold run. induction ops as [|o ops IH]; intros s Hs; simpl; [done|].
  apply IH. destruct (step_active_rooms lib s o) as [-> | (r & info & w & Hin & _)];
    [done|]. by rewrite Hs, lookup_empty in Hin.
Qed.

(** * Further properties of the handlers *)

(** ** Room lookup *)

(** X1.  [get_room] emits nothing and leaves the directory, the broadcast
    groups and every other room as they were.  When it returns a room,
    the store is unchanged and the response is read off the stored room;
    the only write it ever makes is the status "expired" on the room
    looked up, and it makes it exactly when it answers 410; with any
    other exception the store is unchanged. *)
Theorem get_room_only_touches_status (clock : Z) (room_id : string) (s : store) :
  let s' := store_of (get_room clock room_id s) in
  emitted (get_room clock room_id s) = []
  ∧ room_connections s' = room_connections s
  ∧ sio_rooms s' = sio_rooms s
  ∧ (∀ r, r ≠ room_id → active_rooms s' !! r = active_rooms s !! r)
  ∧ (∀ resp, result_of (get_room clock room_id s) = inr resp →
       s' = s ∧ RoomResponse_of <$> active_rooms s !! room_id = Some resp)
  ∧ (result_of (get_room clock room_id s) = inl (HTTPException 410 "Room has expired") →
       ∃ info, active_rooms s !! room_id = Some info
               ∧ active_rooms s' = <[room_id := set_status "expired" info]> (active_rooms s))
  ∧ (∀ e, result_of (get_room clock room_id s) = inl e →
       e ≠ HTTPException 410 "Room has expired" → s' = s).
Proof.
  intros s'. unfold s', get_room, bind, reads, lift, modify, raise.
  destruct (active_rooms s !! room_id) as [info|] eqn:Hin.
  - unfold datetime.gt, datetime.fromisoformat. simpl.
    destruct (datetime.tzinfo (expiresAt info)) as [offset|];
      [|case_bool_decide]; unfold result_of, store_of, emitted; simpl;
      split_and!; try done.
    + intros r Hr. by rewrite lookup_insert_ne.
    + intros _. by exists info.
    + by intros ? [= <-].
    + by intros ? [= <-].
  - unfold result_of, store_of, emitted. simpl. split_and!; try done.
Qed.

Lemma get_room_only_touches_status_witness :
  ∃ info, active_rooms (ex_store (ex_room_naive "active")) !! "room-1" = Some info
    ∧ active_rooms (store_of (get_room 7200000001 "room-1"
                                (ex_store (ex_room_naive "active"))))
      = <[ "room-1" := set_status "expired" info ]>
          (active_rooms (ex_store (ex_room_naive "active"))).
Proof.
  apply (get_room_only_touches_status 7200000001 "room-1"
           (ex_store (ex_room_naive "active"))).
  by vm_compute.
Defined.

(** X2.  For a stored room with a naive [expiresAt]: a request at a clock
    reading up to and including the expiry returns the room, whatever its
    status, and changes nothing; once a request later than the expiry has
    been answered 410, every request at the same or a later reading is
    answered 410 as well and changes nothing further. *)
Theorem get_room_naive_deadline (room_id : string) (s : store) (info : room_info) :
  active_rooms s !! room_id = Some info →
  datetime.tzinfo (expiresAt info) = None →
  (∀ clock, clock ≤ datetime.wall (expiresAt info) →
     get_room clock room_id s = (inr (RoomResponse_of info), s, []))
  ∧ (∀ clock clock', datetime.wall (expiresAt info) < clock → clock ≤ clock' →
       let s1 := store_of (get_room clock room_id s) in
       result_of (get_room clock room_id s) = inl (HTTPException 410 "Room has expired")
       ∧ status_in s1 room_id = Some "expired"
       ∧ get_room clock' room_id s1 =
           (inl (HTTPException 410 "Room has expired"), s1, [])).
Proof.
  intros Hin Hnaive. split.
  - intros clock Hle. by apply get_room_naive_live.
  - intros clock clock' Hlt Hle s1. unfold s1.
    rewrite (get_room_naive_expired clock room_id s info) by done.
    unfold result_of, store_of, status_in. simpl.
    rewrite lookup_insert_eq. split_and!; try done.
    rewrite (get_room_naive_expired clock' room_id _ (set_status "expired" info));
      [ | by simpl; rewrite lookup_insert_eq | done | simpl; lia ].
    unfold with_active_rooms. simpl. by rewrite insert_insert_eq.
Qed.

Lemma get_room_naive_deadline_witness :
  get_room 7200000000 "room-1" (ex_store (ex_room_naive "ended"))
  = (inr (RoomResponse_of (ex_room_naive "ended")), ex_store (ex_room_naive "ended"), []).
Proof.
  apply (get_room_naive_deadline "room-1" (ex_store (ex_room_naive "ended"))
           (ex_room_naive "ended")); [by vm_compute | reflexivity | by vm_compute].
Defined.

(** ** ICE configuration *)

(** X3.  The ICE configuration always starts with the two STUN servers,
    which carry no credentials, and has a third entry, the TURN server,
    exactly when both [TURN_USERNAME] and [TURN_CREDENTIAL] are set to
    non-empty values; one of them alone adds nothing.  No entry carries
    a user name without a credential or an empty one, and the TURN entry
    points to [TURN_URL] as set, or to the default when it is not set. *)
Theorem webrtc_config_turn_iff_credentials (environ : gmap string string) :
  let cfg := iceServers (get_webrtc_config environ) in
  take 2 cfg =
    [ mk_ICEServer (inl ["stun:stun.l.google.com:19302"]) None None;
      mk_ICEServer (inl ["stun:stun1.l.google.com:19302"]) None None ]
  ∧ (length cfg = 2%nat ∨ length cfg = 3%nat)
  ∧ (length cfg = 3%nat ↔
       os_getenv environ "TURN_USERNAME" "" ≠ ""
       ∧ os_getenv environ "TURN_CREDENTIAL" "" ≠ "")
  ∧ (∀ srv, srv ∈ cfg →
       (username srv = None ↔ credential srv = None)
       ∧ username srv ≠ Some "" ∧ credential srv ≠ Some ""
       ∧ (is_Some (username srv) →
          urls srv = inr (os_getenv environ "TURN_URL" "turn:global.turn.twilio.com:3478"))).
Proof.
  intros cfg. unfold cfg, get_webrtc_config.
  destruct (decide (os_getenv environ "TURN_USERNAME" "" ≠ "")) as [Hu|Hu];
    destruct (decide (os_getenv environ "TURN_CREDENTIAL" "" ≠ "")) as [Hc|Hc];
    rewrite ?(bool_decide_eq_true_2 _ Hu), ?(bool_decide_eq_false_2 _ Hu),
            ?(bool_decide_eq_true_2 _ Hc), ?(bool_decide_eq_false_2 _ Hc); simpl.
  all: split_and!; try done; try (by left); try (by right).
  all: try (split; [done | by intros [? ?]]).
  all: intros srv Hsrv; repeat (apply elem_of_cons in Hsrv as [-> | Hsrv]);
       try (by apply not_elem_of_nil in Hsrv); simpl; split_and!; try done;
       try (by intros [? [=]]); try (intros [= ?]; done); try (split; done).
Qed.

Lemma webrtc_config_turn_iff_credentials_witness :
  length (iceServers (get_webrtc_config
            {[ "TURN_USERNAME" := "user"; "TURN_CREDENTIAL" := "secret" ]})) = 3%nat
  ∧ length (iceServers (get_webrtc_config {[ "TURN_USERNAME" := "user" ]})) ≠ 3%nat.
Proof.
  split.
  - apply (webrtc_config_turn_iff_credentials
             {[ "TURN_USERNAME" := "user"; "TURN_CREDENTIAL" := "secret" ]}).
    by vm_compute.
  - intros H3.
    apply (webrtc_config_turn_iff_credentials {[ "TURN_USERNAME" := "user" ]}) in H3.
    destruct H3 as [_ Hc]. by vm_compute in Hc.
Defined.

(** ** Chat acknowledgement and health check *)

(** X4.  Neither handler that stamps its answer with the time ever
    answers: [send_chat_message] raises 404 for a room that is not in the
    registry and [AttributeError] (status 500) for one that is, and
    [health_check] raises [AttributeError] on every store.  Both leave
    the store as it was and emit nothing; in particular a chat message is
    neither stored nor relayed. *)
Theorem stamping_handlers_never_answer (uuid4 : string) (clock : Z)
    (message : ChatMessage) (s : store) :
  send_chat_message uuid4 clock message s =
    (inl (if bool_decide (active_rooms s !! cm_roomId message = None)
          then HTTPException 404 "Room not found"
          else AttributeError "datetime.datetime" "timezone"), s, [])
  ∧ health_check clock s = (inl (AttributeError "datetime.datetime" "timezone"), s, []).
Proof.
  split; [|reflexivity].
  unfold send_chat_message, bind, reads, raise. simpl. by case_bool_decide.
Qed.

(** ** Recording upload *)

(** X5.  [upload_recording] answers 404 and makes no file-system call
    when [roomId] is missing, empty or not a key of the registry.  For a
    room in the registry, whatever its status: when the operating system
    lets the three calls through, the handler has created the directory
    "recordings", opened and written the uploaded bytes unchanged to the
    one path "recordings/", the drawn identifier, "_" and the file name,
    and returns the identifier, the room and as URL that very path with a
    leading slash; when one of the calls raises, that exception is the
    result, no response is returned and nothing has been written. *)
Theorem upload_recording_guard_and_url (uuid4 : string) (filename : option string)
    (content : list Byte.byte) (roomId_ : option string) (os : os_answers)
    (s : store) :
  let path := "recordings/" +:+ uuid4 +:+ "_" +:+ format_filename filename in
  (truthy roomId_ = false
   ∨ (∃ rid, roomId_ = Some rid ∧ active_rooms s !! rid = None) →
   upload_recording uuid4 filename content roomId_ os s
   = ([], inl (HTTPException 404 "Room not found")))
  ∧ (∀ rid, roomId_ = Some rid → rid ≠ "" → is_Some (active_rooms s !! rid) →
     (on_makedirs os = None → on_open os = None → on_write os = None →
      upload_recording uuid4 filename content roomId_ os s
      = ([ fs_makedirs "recordings"; fs_open_wb path; fs_write path content ],
         inr (mk_RecordingResponse uuid4 rid ("/" +:+ path))))
     ∧ (∀ e, on_makedirs os = Some e
             ∨ (on_makedirs os = None ∧ on_open os = Some e)
             ∨ (on_makedirs os = None ∧ on_open os = None ∧ on_write os = Some e) →
        ∃ calls,
          upload_recording uuid4 filename content roomId_ os s = (calls, inl e)
          ∧ ∀ c, c ∈ calls → c = fs_makedirs "recordings" ∨ c = fs_open_wb path))
  ∧ (∀ calls resp,
       upload_recording uuid4 filename content roomId_ os s = (calls, inr resp) →
       on_makedirs os = None ∧ on_open os = None ∧ on_write os = None
       ∧ ∃ rid, roomId_ = Some rid ∧ rid ≠ "" ∧ is_Some (active_rooms s !! rid)).
Proof.
  intros path. unfold upload_recording. split_and!.
  - intros [Hfalsy | (rid & -> & Hnone)].
    + destruct roomId_ as [rid|]; [|done]. by rewrite Hfalsy.
    + by rewrite (bool_decide_eq_true_2 _ Hnone), orb_true_r.
  - intros rid -> Hne [info Hin].
    rewrite truthy_Some by done. simpl.
    rewrite bool_decide_eq_false_2 by (by rewrite Hin). split.
    + by intros -> -> ->.
    + intros e [-> | [[-> ->] | (-> & -> & ->)]].
      * exists []. split; [done|]. by intros c ?%not_elem_of_nil.
      * eexists. split; [done|]. intros c ->%list_elem_of_singleton. by left.
      * eexists. split; [done|]. intros c.
        rewrite elem_of_cons, list_elem_of_singleton. tauto.
  - intros calls resp. destruct roomId_ as [rid|]; [|done].
    destruct (decide (rid = "")) as [->|Hne]; [done|].
    rewrite truthy_Some by done. simpl. case_bool_decide as Hin; [done|].
    destruct (on_makedirs os); [done|]. destruct (on_open os); [done|].
    destruct (on_write os); [done|]. intros _. split_and!; try done.
    exists rid. split_and!; try done.
    by destruct (active_rooms s !! rid).
Qed.

Lemma upload_recording_guard_and_url_witness :
  upload_recording "id-1" (Some "call.webm") [] (Some "room-9") ex_os_fine
    (ex_store (ex_room_naive "ended"))
  = ([], inl (HTTPException 404 "Room not found"))
  ∧ upload_recording "id-1" (Some "call.webm") [] (Some "room-1") ex_os_fine
      (ex_store (ex_room_naive "ended"))
    = ([ fs_makedirs "recordings"; fs_open_wb "recordings/id-1_call.webm";
         fs_write "recordings/id-1_call.webm" [] ],
       inr (mk_RecordingResponse "id-1" "room-1" "/recordings/id-1_call.webm"))
  ∧ ∃ calls,
      upload_recording "id-1" (Some "a/b.webm") [] (Some "room-1") ex_os_open_fails
        (ex_store (ex_room_naive "ended"))
      = (calls, inl (OSError "FileNotFoundError"))
      ∧ ∀ c, c ∈ calls →
             c = fs_makedirs "recordings" ∨ c = fs_open_wb "recordings/id-1_a/b.webm".
Proof.
  assert (is_Some (active_rooms (ex_store (ex_room_naive "ended")) !! "room-1"))
    as Hin.
  { eexists. by vm_compute. }
  split_and!.
  - apply (upload_recording_guard_and_url "id-1" (Some "call.webm") []
             (Some "room-9") ex_os_fine (ex_store (ex_room_naive "ended"))).
    right. exists "room-9". split; [reflexivity | by vm_compute].
  - apply (proj1 (proj1 (proj2 (upload_recording_guard_and_url "id-1"
                    (Some "call.webm") [] (Some "room-1") ex_os_fine
                    (ex_store (ex_room_naive "ended"))))
                    "room-1" eq_refl ltac:(discriminate) Hin));
      reflexivity.
  - apply (proj2 (proj1 (proj2 (upload_recording_guard_and_url "id-1"
                    (Some "a/b.webm") [] (Some "room-1") ex_os_open_fails
                    (ex_store (ex_room_naive "ended"))))
                    "room-1" eq_refl ltac:(discriminate) Hin)).
    right. left. by split.
Defined.

(** ** How the router events change the directory and the groups *)

Lemma roomId_cases (data : event_data) :
  (∃ rid, d_roomId data = Some rid ∧ rid ≠ "") ∨ truthy (d_roomId data) = false.
Proof.
  destruct (d_roomId data) as [rid|]; [|by right].
  destruct (decide (rid = "")) as [->|Hne]; [by right | left; eauto].
Qed.

Lemma join_cases (lib : sio_library) (sid : string) (data : event_data) (s : store) :
  (∃ rid, d_roomId data = Some rid ∧ rid ≠ "" ∧ is_Some (active_rooms s !! rid)
          ∧ join lib sid data s =
              (inr (), joined lib sid rid s,
               [ mk_emission "user_joined"
                   [("userId", d_userId data); ("role", d_role data)]
                   rid (Some sid) (members (sio_rooms s) rid ∖ {[ sid ]}) ]))
  ∨ join lib sid data s =
      (inr (), s,
       [ mk_emission "error" [("message", PyStr "Room not found")] sid None
           (members (sio_rooms s) sid) ]).
Proof.
  destruct (roomId_cases data) as [(rid & Hrid & Hne) | Hfalsy].
  - destruct (active_rooms s !! rid) as [info|] eqn:Hin.
    + left. exists rid. split_and!; [done..|]. by apply join_present.
    + right. apply join_absent. right. by exists rid.
  - right. apply join_absent. by left.
Qed.

Lemma list_remove_first_elem_of (x z : string) (l : list string) :
  z ∈ list_remove_first x l → z ∈ l.
Proof.
  induction l as [|y l IH]; simpl; [done|].
  case_bool_decide; rewrite !elem_of_cons; [by right|].
  intros [->|Hz]; [by left | right; by apply IH].
Qed.

Lemma list_remove_first_snoc (x : string) (l : list string) :
  x ∉ l → list_remove_first x (l ++ [x]) = l.
Proof.
  induction l as [|y l IH]; simpl.
  - intros _. by rewrite bool_decide_eq_true_2.
  - rewrite not_elem_of_cons. intros [Hxy Hl].
    rewrite bool_decide_eq_false_2 by done. by rewrite IH.
Qed.

Lemma odict_lookup_map {V} (f : V → V) (k : string) (d : list (string * V)) :
  odict.lookup k (map (λ p, (p.1, f p.2)) d) = f <$> odict.lookup k d.
Proof.
  induction d as [|[k0 v0] d IH]; simpl; [done|]. by case_bool_decide.
Qed.

(** The directory after one operation. *)
Lemma step_room_connections (lib : sio_library) (s : store) (o : op) :
  room_connections (step lib s o) = room_connections s
  ∨ (∃ sid, o = Disconnect sid
        ∧ room_connections (step lib s o) =
            map (λ p, (p.1, list_remove_first sid p.2)) (room_connections s))
  ∨ (∃ sid data rid, o = Join sid data ∧ d_roomId data = Some rid
        ∧ is_Some (active_rooms s !! rid)
        ∧ room_connections (step lib s o) =
            odict.set rid (connections_of s rid ++ [sid]) (room_connections s))
  ∨ (∃ sid data rid, o = Leave sid data ∧ d_roomId data = Some rid
        ∧ room_connections (step lib s o) = without sid rid (room_connections s)).
Proof.
  destruct o as [uuid4 c1 c2 rd | clock rid | sid | sid | sid d | sid d | sid d
                 | sid d | sid d | sid d]; simpl.
  - by left.
  - left. unfold get_room, bind, reads, lift, modify, raise.
    destruct (active_rooms s !! rid) as [info|]; [|done].
    by destruct (datetime.gt _ _) as [e|[|]].
  - by left.
  - right. left. exists sid. split; [done|].
    unfold server_disconnect, bind, modify. by rewrite disconnect_spec.
  - destruct (join_cases lib sid d s) as [(rid & Hrid & Hne & Hin & ->) | ->];
      [|by left].
    right. right. left. by exists sid, d, rid.
  - left. unfold offer. rewrite relay_spec.
    destruct (d_roomId d); [case_bool_decide|]; done.
  - left. unfold answer. rewrite relay_spec.
    destruct (d_roomId d); [case_bool_decide|]; done.
  - left. unfold candidate. rewrite relay_spec.
    destruct (d_roomId d); [case_bool_decide|]; done.
  - destruct (roomId_cases d) as [(rid & Hrid & Hne) | Hfalsy].
    + right. right. right. exists sid, d, rid. by rewrite (leave_spec _ _ _ _ rid).
    + left. by rewrite leave_dropped.
  - left. destruct (roomId_cases d) as [(rid & Hrid & Hne) | Hfalsy].
    + rewrite (end_spec _ _ _ rid) by done. unfold store_of. simpl.
      by destruct (active_rooms s !! rid).
    + by rewrite end_dropped.
Qed.

(** The members of a group after one operation were members before, or
    the operation is the session's own connect or join. *)
Lemma step_members (lib : sio_library) (s : store) (o : op) (x r : string) :
  x ∈ members (sio_rooms (step lib s o)) r →
  x ∈ members (sio_rooms s) r
  ∨ (o = Connect x ∧ r = x)
  ∨ (∃ data, o = Join x data ∧ d_roomId data = Some r
             ∧ is_Some (active_rooms s !! r)).
Proof.
  destruct o as [uuid4 c1 c2 rd | clock rid | sid | sid | sid d | sid d | sid d
                 | sid d | sid d | sid d]; simpl.
  - by left.
  - unfold get_room, bind, reads, lift, modify, raise.
    destruct (active_rooms s !! rid) as [info|]; [|by left].
    destruct (datetime.gt _ _) as [e|[|]]; by left.
  - unfold server_connect, connect, sio_enter_room, bind, modify, ret, store_of.
    simpl. destruct (decide (sid = r)) as [->|Hne].
    + rewrite members_insert_eq. rewrite elem_of_union, elem_of_singleton.
      intros [->|?]; [right; by left | by left].
    + unfold members. rewrite lookup_insert_ne by done. by left.
  - unfold server_disconnect, bind, modify. rewrite disconnect_spec.
    unfold store_of, members. simpl. rewrite lookup_omap.
    destruct (sio_rooms s !! r) as [m|]; simpl; [|by left].
    case_bool_decide; simpl; [set_solver|]. left. set_solver.
  - destruct (join_cases lib sid d s) as [(rid & Hrid & Hne & Hin & ->) | ->];
      [|by left].
    unfold store_of, joined. simpl.
    intros [? | [-> ->]]%members_entered; [by left|].
    right. right. by exists d.
  - unfold offer. rewrite relay_spec.
    destruct (d_roomId d); [case_bool_decide|]; by left.
  - unfold answer. rewrite relay_spec.
    destruct (d_roomId d); [case_bool_decide|]; by left.
  - unfold candidate. rewrite relay_spec.
    destruct (d_roomId d); [case_bool_decide|]; by left.
  - destruct (roomId_cases d) as [(rid & Hrid & Hne) | Hfalsy].
    + rewrite (leave_spec _ _ _ _ rid) by done. unfold store_of. simpl.
      intros ?%members_departed_sub. by left.
    + rewrite leave_dropped by done. by left.
  - destruct (roomId_cases d) as [(rid & Hrid & Hne) | Hfalsy].
    + rewrite (end_spec _ _ _ rid) by done. unfold store_of. simpl.
      destruct (active_rooms s !! rid); by left.
    + rewrite end_dropped by done. by left.
Qed.

(** Every emission of an operation is delivered inside the group it is
    addressed to, as the group stood before the operation. *)
Lemma outputs_members (lib : sio_library) (s : store) (o : op) (e : emission) :
  e ∈ outputs lib s o →
  em_to e ⊆ members (sio_rooms s) (em_room e)
  ∧ (∀ x, em_skip_sid e = Some x → x ∉ em_to e).
Proof.
  destruct o as [uuid4 c1 c2 rd | clock rid | sid | sid | sid d | sid d | sid d
                 | sid d | sid d | sid d]; simpl.
  - by intros ?%not_elem_of_nil.
  - unfold get_room, bind, reads, lift, modify, raise.
    destruct (active_rooms s !! rid) as [info|]; [|by intros ?%not_elem_of_nil].
    destruct (datetime.gt _ _) as [?|[|]]; by intros ?%not_elem_of_nil.
  - by intros ?%not_elem_of_nil.
  - unfold server_disconnect, bind, modify. rewrite disconnect_spec.
    unfold emitted. simpl. rewrite app_nil_r.
    intros (p & -> & _)%list_elem_of_fmap. simpl. split; [set_solver|].
    intros x [= <-]. set_solver.
  - destruct (join_cases lib sid d s) as [(rid & Hrid & Hne & Hin & ->) | ->];
      unfold emitted; simpl; intros ->%list_elem_of_singleton; simpl.
    + split; [set_solver|]. intros x [= <-]. set_solver.
    + by split.
  - unfold offer. rewrite relay_spec.
    destruct (d_roomId d); [case_bool_decide|]; unfold emitted; simpl;
      try (by intros ?%not_elem_of_nil).
    intros ->%list_elem_of_singleton. simpl. split; [set_solver|].
    intros x [= <-]. set_solver.
  - unfold answer. rewrite relay_spec.
    destruct (d_roomId d); [case_bool_decide|]; unfold emitted; simpl;
      try (by intros ?%not_elem_of_nil).
    intros ->%list_elem_of_singleton. simpl. split; [set_solver|].
    intros x [= <-]. set_solver.
  - unfold candidate. rewrite relay_spec.
    destruct (d_roomId d); [case_bool_decide|]; unfold emitted; simpl;
      try (by intros ?%not_elem_of_nil).
    intros ->%list_elem_of_singleton. simpl. split; [set_solver|].
    intros x [= <-]. set_solver.
  - destruct (roomId_cases d) as [(rid & Hrid & Hne) | Hfalsy].
    + rewrite (leave_spec _ _ _ _ rid) by done. unfold emitted. simpl.
      intros ->%list_elem_of_singleton. simpl. split; [|done].
      intros x. apply members_departed_sub.
    + rewrite leave_dropped by done. by intros ?%not_elem_of_nil.
  - destruct (roomId_cases d) as [(rid & Hrid & Hne) | Hfalsy].
    + rewrite (end_spec _ _ _ rid) by done. unfold emitted. simpl.
      intros ->%list_elem_of_singleton. simpl. by split.
    + rewrite end_dropped by done. by intros ?%not_elem_of_nil.
Qed.

(** ** Join followed by leave *)

Lemma members_insert_other (g : gmap string (gset string)) (room room' : string)
    (m : gset string) :
  room ≠ room' → members (<[room := m]> g) room' = members g room'.
Proof. intros Hne. unfold members. by rewrite lookup_insert_ne. Qed.

(** X6.  A session that is neither listed in a registered room nor in
    its broadcast group, and joins and then leaves it, is back where it
    was: the connection list and the broadcast group of every room, and
    the registry, are those from before the join. *)
Theorem join_then_leave_restores (lib : sio_library) (sid : string)
    (data : event_data) (s : store) (rid : string) :
  d_roomId data = Some rid → rid ≠ "" → is_Some (active_rooms s !! rid) →
  sid ∉ connections_of s rid → sid ∉ members (sio_rooms s) rid →
  let s2 := store_of (leave lib sid data (store_of (join lib sid data s))) in
  active_rooms s2 = active_rooms s
  ∧ (∀ r, connections_of s2 r = connections_of s r)
  ∧ (∀ r, members (sio_rooms s2) r = members (sio_rooms s) r).
Proof.
  intros Hrid Hne Hin Hlist Hgroup s2. unfold s2.
  rewrite (join_present _ _ _ _ rid) by done.
  rewrite (leave_spec _ _ _ _ rid) by done.
  unfold store_of, joined, connections_of in *. simpl. split_and!; [done| |].
  - intros r. destruct (decide (rid = r)) as [<-|Hr].
    + rewrite without_lookup_eq, odict_lookup_set_eq. simpl.
      by apply list_remove_first_snoc.
    + by rewrite without_lookup_ne, odict_lookup_set_ne.
  - intros r. destruct lib; simpl; [|done].
    destruct (decide (rid = r)) as [<-|Hr].
    + rewrite members_leave_group_eq, members_insert_eq. set_solver.
    + by rewrite members_leave_group_ne, members_insert_other.
Qed.

Lemma join_then_leave_restores_witness :
  connections_of
    (store_of (leave coroutines "a" (ex_event (Some "room-1"))
                 (store_of (join coroutines "a" (ex_event (Some "room-1"))
                              (ex_store (ex_room_naive "active")))))) "room-1"
  = connections_of (ex_store (ex_room_naive "active")) "room-1".
Proof.
  assert ("a" ∉ connections_of (ex_store (ex_room_naive "active")) "room-1") as Hl.
  { vm_compute. apply not_elem_of_nil. }
  assert ("a" ∉ members (sio_rooms (ex_store (ex_room_naive "active"))) "room-1")
    as Hg.
  { vm_compute. set_solver. }
  assert (is_Some (active_rooms (ex_store (ex_room_naive "active")) !! "room-1"))
    as Hin.
  { eexists. by vm_compute. }
  pose proof (join_then_leave_restores coroutines "a" (ex_event (Some "room-1"))
                (ex_store (ex_room_naive "active")) "room-1"
                eq_refl ltac:(discriminate) Hin Hl Hg) as H.
  exact (proj1 (proj2 H) "room-1").
Defined.

(** ** Invariants of runs *)

Lemma set_status_same (r : room_info) : set_status (status r) r = r.
Proof. by destruct r. Qed.

Lemma step_room_fields (lib : sio_library) (s : store) (o : op) (rid : string) :
  (active_rooms s !! rid = None ∧ active_rooms (step lib s o) !! rid = None)
  ∨ ∃ info st, active_rooms s !! rid = Some info
               ∧ active_rooms (step lib s o) !! rid = Some (set_status st info).
Proof.
  destruct (step_active_rooms lib s o) as [-> | (r & info & w & Hin & _ & ->)].
  - destruct (active_rooms s !! rid) as [info|] eqn:Hin; [|by left].
    right. exists info, (status info). by rewrite set_status_same.
  - destruct (decide (r = rid)) as [->|Hne].
    + right. exists info, w. by rewrite lookup_insert_eq.
    + rewrite lookup_insert_ne by done.
      destruct (active_rooms s !! rid) as [info'|] eqn:Hin'; [|by left].
      right. exists info', (status info'). by rewrite set_status_same.
Qed.

(** X7.  Along any sequence of operations the registry keeps exactly its
    rooms: no room is added or removed, and a room keeps its identifier,
    owner, companion, creation time and expiry; at most its status
    differs.  In particular an expiry is never extended. *)
Theorem registry_rooms_fixed_but_status (lib : sio_library)
    (ops : list op) (s : store) (rid : string) :
  (active_rooms (run lib ops s) !! rid = None ↔ active_rooms s !! rid = None)
  ∧ (∀ info, active_rooms s !! rid = Some info →
       ∃ st, active_rooms (run lib ops s) !! rid = Some (set_status st info)).
Proof.
  revert s. unfold run. induction ops as [|o ops IH]; intros s; simpl.
  - split; [done|]. intros info Hin. exists (status info).
    by rewrite set_status_same.
  - destruct (IH (step lib s o)) as [IHnone IHsome].
    destruct (step_room_fields lib s o rid) as [[Hn Hn'] | (info & st & Hin & Hin')].
    + split; [by rewrite IHnone|]. intros info Hin. by rewrite Hn in Hin.
    + split.
      * rewrite IHnone, Hin, Hin'. done.
      * intros info0 Hin0. rewrite Hin in Hin0. injection Hin0 as <-.
        destruct (IHsome _ Hin') as [st' Hst']. exists st'. by rewrite Hst'.
Qed.

Lemma registry_rooms_fixed_but_status_witness :
  ∃ st, active_rooms
          (run coroutines [GetRoom 7200000001 "room-1"; End "a" (ex_event (Some "room-1"))]
             (ex_store (ex_room_naive "active"))) !! "room-1"
        = Some (set_status st (ex_room_naive "active")).
Proof.
  apply (registry_rooms_fixed_but_status coroutines
           [GetRoom 7200000001 "room-1"; End "a" (ex_event (Some "room-1"))]
           (ex_store (ex_room_naive "active")) "room-1").
  by vm_compute.
Defined.

Lemma step_listed (lib : sio_library) (s : store) (o : op) (x r : string) :
  x ∈ connections_of (step lib s o) r →
  x ∈ connections_of s r ∨ ∃ data, o = Join x data ∧ d_roomId data = Some r.
Proof.
  unfold connections_of.
  destruct (step_room_connections lib s o)
    as [-> | [(sid & -> & ->) | [(sid & d & rid & -> & Hrid & _ & ->)
                                 | (sid & d & rid & -> & Hrid & ->)]]].
  - by left.
  - rewrite odict_lookup_map.
    destruct (odict.lookup r (room_connections s)) as [l|]; simpl; [|by left].
    intros ?%list_remove_first_elem_of. by left.
  - destruct (decide (rid = r)) as [->|Hr].
    + rewrite odict_lookup_set_eq. simpl. unfold connections_of.
      rewrite elem_of_app, list_elem_of_singleton.
      intros [?| ->]; [by left | right; by exists d].
    + rewrite odict_lookup_set_ne by done. by left.
  - destruct (decide (rid = r)) as [->|Hr].
    + rewrite without_lookup_eq. intros ?%list_remove_first_elem_of. by left.
    + rewrite without_lookup_ne by done. by left.
Qed.

(** X8.  A session is listed in a room's connection list only through
    its own join to that room: after any sequence of operations, a handle
    found in a room's list was there at the start or the sequence holds a
    join sent by that very session for that room.  No event lists another
    session than its sender. *)
Theorem listed_only_by_own_join (lib : sio_library)
    (ops : list op) (s : store) (x r : string) :
  x ∈ connections_of (run lib ops s) r →
  x ∈ connections_of s r
  ∨ ∃ data, Join x data ∈ ops ∧ d_roomId data = Some r.
Proof.
  revert s. unfold run. induction ops as [|o ops IH]; intros s; simpl.
  - by left.
  - intros [Hin | (d & Hd & Hr)]%IH.
    + apply step_listed in Hin as [? | (d & -> & Hr)]; [by left|].
      right. exists d. split; [apply list_elem_of_here | done].
    + right. exists d. split; [by apply list_elem_of_further | done].
Qed.

Lemma listed_only_by_own_join_witness :
  "a" ∈ connections_of (ex_store (ex_room_naive "active")) "room-1"
  ∨ ∃ data, Join "a" data ∈ [Join "a" (ex_event (Some "room-1"));
                             Join "b" (ex_event (Some "room-1"))]
            ∧ d_roomId data = Some "room-1".
Proof.
  apply (listed_only_by_own_join coroutines
           [Join "a" (ex_event (Some "room-1")); Join "b" (ex_event (Some "room-1"))]
           (ex_store (ex_room_naive "active")) "a" "room-1").
  vm_compute. apply list_elem_of_here.
Defined.

(** X9.  A session gets into a broadcast group only by connecting (the
    group named by its own handle) or through its own join to a room of
    the registry: after any sequence of operations, a member of a group
    was one at the start, or the sequence holds that connect or such a
    join.  No event puts another session than its sender into a group. *)
Theorem grouped_only_by_own_connect_or_join (lib : sio_library)
    (ops : list op) (s : store)
    (x r : string) :
  x ∈ members (sio_rooms (run lib ops s)) r →
  x ∈ members (sio_rooms s) r
  ∨ (Connect x ∈ ops ∧ r = x)
  ∨ ∃ data, Join x data ∈ ops ∧ d_roomId data = Some r.
Proof.
  revert s. unfold run. induction ops as [|o ops IH]; intros s; simpl.
  - by left.
  - intros [Hin | [[Hc ->] | (d & Hd & Hr)]]%IH.
    + apply step_members in Hin as [? | [[-> ->] | (d & -> & Hr & _)]].
      * by left.
      * right. left. split; [apply list_elem_of_here | done].
      * right. right. exists d. split; [apply list_elem_of_here | done].
    + right. left. split; [by apply list_elem_of_further | done].
    + right. right. exists d. split; [by apply list_elem_of_further | done].
Qed.

Lemma grouped_only_by_own_connect_or_join_witness :
  "b" ∈ members (sio_rooms (ex_store (ex_room_naive "active"))) "room-1"
  ∨ (Connect "b" ∈ [Join "a" (ex_event (Some "room-1"));
                    Join "b" (ex_event (Some "room-1"))] ∧ "room-1" = "b")
  ∨ ∃ data, Join "b" data ∈ [Join "a" (ex_event (Some "room-1"));
                             Join "b" (ex_event (Some "room-1"))]
            ∧ d_roomId data = Some "room-1".
Proof.
  apply (grouped_only_by_own_connect_or_join plain_methods
           [Join "a" (ex_event (Some "room-1")); Join "b" (ex_event (Some "room-1"))]
           (ex_store (ex_room_naive "active")) "b" "room-1").
  vm_compute. set_solver.
Defined.

(** ** Who receives what along a run *)

Lemma trace_members (lib : sio_library)
    (ops : list op) (s : store) (e : emission) (x : string) :
  e ∈ trace lib ops s → x ∈ em_to e →
  x ∈ members (sio_rooms s) (em_room e)
  ∨ (Connect x ∈ ops ∧ em_room e = x)
  ∨ ∃ data, Join x data ∈ ops ∧ d_roomId data = Some (em_room e).
Proof.
  revert s. induction ops as [|o ops IH]; intros s; simpl.
  - by intros ?%not_elem_of_nil.
  - rewrite elem_of_app. intros [He | He] Hx.
    + left. apply outputs_members in He as [Hsub _]. by apply Hsub.
    + destruct (IH _ He Hx) as [Hin | [[Hc Hr] | (d & Hd & Hr)]].
      * apply step_members in Hin as [? | [[-> Hr] | (d & -> & Hr & _)]].
        -- by left.
        -- right. left. split; [apply list_elem_of_here | done].
        -- right. right. exists d. split; [apply list_elem_of_here | done].
      * right. left. split; [by apply list_elem_of_further | done].
      * right. right. exists d. split; [by apply list_elem_of_further | done].
Qed.

Lemma trace_skip (lib : sio_library)
    (ops : list op) (s : store) (e : emission) (x : string) :
  e ∈ trace lib ops s → em_skip_sid e = Some x → x ∉ em_to e.
Proof.
  revert s. induction ops as [|o ops IH]; intros s; simpl.
  - by intros ?%not_elem_of_nil.
  - rewrite elem_of_app. intros [He | He] Hskip.
    + apply outputs_members in He as [_ Hs]. by apply Hs.
    + by eapply IH.
Qed.

(** X10.  Room traffic stays in the room: whatever the sequence of
    operations, an emission addressed to a group reaches a session only
    if that session was in the group at the start, or has itself
    connected (for the group named by its handle) or itself sent a join
    for that room within the sequence; and the session an emission skips
    never receives it. *)
Theorem emissions_reach_group_members_only (lib : sio_library)
    (ops : list op) (s : store)
    (e : emission) :
  e ∈ trace lib ops s →
  (∀ x, x ∈ em_to e →
     x ∈ members (sio_rooms s) (em_room e)
     ∨ (Connect x ∈ ops ∧ em_room e = x)
     ∨ ∃ data, Join x data ∈ ops ∧ d_roomId data = Some (em_room e))
  ∧ (∀ x, em_skip_sid e = Some x → x ∉ em_to e).
Proof.
  intros He. split.
  - intros x Hx. by apply (trace_members lib ops s e x).
  - intros x Hskip. by apply (trace_skip lib ops s e x).
Qed.

Lemma emissions_reach_group_members_only_witness :
  "b" ∉ em_to
          (mk_emission "user_joined"
             [("userId", PyStr "alice"); ("role", PyStr "caller")]
             "room-1" (Some "b") {[ "a" ]}).
Proof.
  assert (mk_emission "user_joined"
            [("userId", PyStr "alice"); ("role", PyStr "caller")]
            "room-1" (Some "b") {[ "a" ]}
          ∈ trace plain_methods
              [Join "a" (ex_event (Some "room-1"));
               Join "b" (ex_event (Some "room-1"))]
              (ex_store (ex_room_naive "active"))) as He.
  { vm_compute. apply list_elem_of_further, list_elem_of_here. }
  exact (proj2 (emissions_reach_group_members_only _ _ _ _ He) "b" eq_refl).
Defined.

(** X11.  Once the server has finished a session's disconnect, nothing
    reaches that session any more: no emission of any later sequence of
    operations is delivered to it, as long as the session does not
    connect or join again. *)
Theorem disconnected_session_receives_nothing (lib : sio_library)
    (sid : string) (s : store)
    (ops : list op) :
  Forall (λ o, ¬ enters sid o) ops →
  ∀ e, e ∈ trace lib ops (store_of (server_disconnect sid s)) → sid ∉ em_to e.
Proof.
  intros Hops e He Hto.
  destruct (trace_members _ _ _ _ _ He Hto) as [Hin | [[Hc _] | (d & Hd & _)]].
  - by apply server_disconnect_groups in Hin.
  - rewrite Forall_forall in Hops. apply (Hops _ Hc). by left.
  - rewrite Forall_forall in Hops. apply (Hops _ Hd). right. by exists d.
Qed.

Lemma disconnected_session_receives_nothing_witness :
  Forall (λ e, "a" ∉ em_to e)
    (trace coroutines
       [Offer "b" (ex_event (Some "room-1")); End "b" (ex_event (Some "room-1"))]
       (store_of (server_disconnect "a" ex_store_two_peers))).
Proof.
  apply Forall_forall.
  apply (disconnected_session_receives_nothing coroutines "a" ex_store_two_peers).
  repeat constructor; intros [[=] | [d [=]]].
Defined.

(** X12.  What a [leave] does to later traffic is decided by the
    library.  Where the call of line 308 runs (plain methods), no
    emission addressed to that room reaches the session over any later
    sequence of operations in which it does not connect or join again.
    Where it is a coroutine, the [leave] changes no group: a session that
    was in the room's group stays in it, receives its own [user_left],
    and receives every offer that another session sends to the room
    afterwards. *)
Theorem leave_and_later_room_traffic (sid : string) (data : event_data)
    (s : store) (rid : string) :
  d_roomId data = Some rid → rid ≠ "" →
  (∀ ops, Forall (λ o, ¬ enters sid o) ops →
     ∀ e, e ∈ trace plain_methods ops (store_of (leave plain_methods sid data s)) →
          em_room e = rid → sid ∉ em_to e)
  ∧ sio_rooms (store_of (leave coroutines sid data s)) = sio_rooms s
  ∧ (sid ∈ members (sio_rooms s) rid →
     (∀ e, e ∈ emitted (leave coroutines sid data s) → sid ∈ em_to e)
     ∧ (∀ sid2 data2 e, sid2 ≠ sid → d_roomId data2 = Some rid →
          e ∈ emitted (offer sid2 data2 (store_of (leave coroutines sid data s))) →
          sid ∈ em_to e)).
Proof.
  intros Hrid Hne. split_and!.
  - intros ops Hops e He Hroom Hto.
    destruct (trace_members _ _ _ _ _ He Hto) as [Hin | [[Hc _] | (d & Hd & _)]].
    + rewrite Hroom, (leave_spec _ _ _ _ rid) in Hin by done.
      unfold store_of in Hin. simpl in Hin.
      rewrite members_leave_group_eq in Hin. set_solver.
    + rewrite Forall_forall in Hops. apply (Hops _ Hc). by left.
    + rewrite Forall_forall in Hops. apply (Hops _ Hd). right. by exists d.
  - by rewrite (leave_spec _ _ _ _ rid).
  - intros Hin. rewrite (leave_spec _ _ _ _ rid) by done.
    unfold store_of, emitted. simpl. split.
    + by intros e ->%list_elem_of_singleton.
    + intros sid2 data2 e Hsid2 Hrid2. unfold offer. rewrite relay_spec, Hrid2.
      rewrite bool_decide_eq_true_2 by done. simpl.
      intros ->%list_elem_of_singleton. simpl. set_solver.
Qed.

Lemma leave_and_later_room_traffic_witness :
  Forall (λ e, "a" ∈ em_to e)
    (emitted (offer "b" (ex_event (Some "room-1"))
                (store_of (leave coroutines "a" (ex_event (Some "room-1"))
                             ex_store_two_peers)))).
Proof.
  pose proof (leave_and_later_room_traffic "a" (ex_event (Some "room-1"))
                ex_store_two_peers "room-1" eq_refl ltac:(discriminate)) as H.
  apply Forall_forall. intros e He.
  apply (proj2 (proj2 (proj2 H) ltac:(vm_compute; set_solver))
           "b" (ex_event (Some "room-1")) e); [discriminate | reflexivity | exact He].
Defined.

(** ** Repeated disconnect *)

(** X13.  When every connection list holds the handle at most once, a
    second run of [disconnect] for the same session finds nothing to do:
    it changes no store and notifies no room. *)
Theorem disconnect_again_is_silent (sid : string) (s : store) :
  Forall (λ p, (occurrences sid p.2 ≤ 1)%nat) (room_connections s) →
  disconnect sid (store_of (disconnect sid s))
  = (inr (), store_of (disconnect sid s), []).
Proof.
  intros Hall. rewrite !disconnect_spec. unfold store_of. simpl.
  assert (Forall (λ p : string * list string, sid ∉ p.2)
            (map (λ p, (p.1, list_remove_first sid p.2)) (room_connections s)))
    as Hgone.
  { apply Forall_map. eapply Forall_impl; [exact Hall|].
    intros p Hp. simpl. by apply list_remove_first_once. }
  induction Hgone as [|p l Hp Hl IH]; [done|]. simpl.
  rewrite filter_cons_False by done.
  rewrite list_remove_first_notin by done.
  injection IH as IHmap IHout. rewrite IHmap, IHout. by destruct p.
Qed.

Lemma disconnect_again_is_silent_witness :
  emitted (disconnect "a" (store_of (disconnect "a" ex_store_two_rooms))) = [].
Proof.
  rewrite (disconnect_again_is_silent "a" ex_store_two_rooms); [reflexivity|].
  repeat constructor; vm_compute; lia.
Defined.

(** ** The service as started *)

Lemma step_keeps_empty (lib : sio_library) (s : store) (o : op) :
  active_rooms s = ∅ → room_connections s = [] →
  active_rooms (step lib s o) = ∅ ∧ room_connections (step lib s o) = [].
Proof.
  intros Hrooms Hconns. split.
  - destruct (step_active_rooms lib s o) as [-> | (r & info & w & Hin & _)]; [done|].
    by rewrite Hrooms, lookup_empty in Hin.
  - destruct (step_room_connections lib s o)
      as [-> | [(sid & -> & ->) | [(sid & d & rid & -> & Hrid & [info Hin] & _)
                                   | (sid & d & rid & -> & Hrid & ->)]]].
    + done.
    + by rewrite Hconns.
    + by rewrite Hrooms, lookup_empty in Hin.
    + by rewrite Hconns.
Qed.

Lemma run_keeps_empty (lib : sio_library) (ops : list op) (s : store) :
  active_rooms s = ∅ → room_connections s = [] →
  active_rooms (run lib ops s) = ∅ ∧ room_connections (run lib ops s) = [].
Proof.
  revert s. unfold run. induction ops as [|o ops IH]; intros s Hr Hc; simpl;
    [done|].
  destruct (step_keeps_empty lib s o Hr Hc) as [Hr' Hc']. by apply IH.
Qed.

(** X14.  Started with its empty stores, the service never gets a room:
    after any sequence of operations the registry and the directory are
    still empty, so every room lookup is answered 404, every join is
    answered with the error event and changes nothing, and every chat
    message and every recording upload is answered 404. *)
Theorem service_never_has_a_room (lib : sio_library) (ops : list op) :
  let s := run lib ops initial_store in
  active_rooms s = ∅
  ∧ room_connections s = []
  ∧ (∀ clock room_id,
       get_room clock room_id s = (inl (HTTPException 404 "Room not found"), s, []))
  ∧ (∀ sid data,
       join lib sid data s =
         (inr (), s,
          [ mk_emission "error" [("message", PyStr "Room not found")] sid None
              (members (sio_rooms s) sid) ]))
  ∧ (∀ uuid4 clock message,
       send_chat_message uuid4 clock message s =
         (inl (HTTPException 404 "Room not found"), s, []))
  ∧ (∀ uuid4 filename content roomId_ os,
       upload_recording uuid4 filename content roomId_ os s =
         ([], inl (HTTPException 404 "Room not found"))).
Proof.
  intros s.
  assert (active_rooms s = ∅ ∧ room_connections s = []) as [Hrooms Hconns].
  { by apply run_keeps_empty. }
  split_and!; try done.
  - intros clock room_id. apply get_room_not_found. by rewrite Hrooms, lookup_empty.
  - intros sid data. destruct (join_cases lib sid data s)
      as [(rid & _ & _ & [info Hin] & _) | ->]; [|done].
    by rewrite Hrooms, lookup_empty in Hin.
  - intros uuid4 clock message. unfold send_chat_message, bind, reads, raise. simpl.
    by rewrite Hrooms, lookup_empty.
  - intros uuid4 filename content roomId_ os. unfold upload_recording.
    destruct roomId_ as [rid|]; [|done].
    by rewrite Hrooms, lookup_empty, orb_true_r.
Qed.

(** Started empty, a store has no room, and each of its groups holds at
    most the session it is named after. *)
Definition only_own_groups (s : store) : Prop :=
  active_rooms s = ∅ ∧ ∀ r x, x ∈ members (sio_rooms s) r → x = r.

Lemma step_only_own_groups (lib : sio_library) (s : store) (o : op) :
  only_own_groups s → only_own_groups (step lib s o).
Proof.
  intros [Hrooms Hown]. split.
  - destruct (step_active_rooms lib s o) as [-> | (r & info & w & Hin & _)]; [done|].
    by rewrite Hrooms, lookup_empty in Hin.
  - intros r x [Hin | [[_ ->] | (d & _ & _ & [info Hin])]]%step_members.
    + by apply Hown.
    + done.
    + by rewrite Hrooms, lookup_empty in Hin.
Qed.

Lemma run_only_own_groups (lib : sio_library) (ops : list op) (s : store) :
  only_own_groups s → only_own_groups (run lib ops s).
Proof.
  revert s. unfold run. induction ops as [|o ops IH]; intros s Hs; simpl; [done|].
  by apply IH, step_only_own_groups.
Qed.

Lemma trace_only_own_groups (lib : sio_library) (ops : list op) (s : store)
    (e : emission) (x : string) :
  only_own_groups s → e ∈ trace lib ops s → x ∈ em_to e → x = em_room e.
Proof.
  revert s. induction ops as [|o ops IH]; intros s Hs; simpl.
  - by intros ?%not_elem_of_nil.
  - rewrite elem_of_app. intros [He | He] Hx.
    + apply outputs_members in He as [Hsub _]. apply Hs. by apply Hsub.
    + by apply (IH (step lib s o)); [apply step_only_own_groups | |].
Qed.

(** X16.  Started with its empty stores, the service relays nothing
    through a room, under either library: after any sequence of
    operations every broadcast group holds at most the session it is
    named after, and every emission made along the way reaches at most
    the one session whose handle is the name the emission is addressed
    to.  An offer, answer, candidate, [user_left] or [call_ended] sent to
    a room identifier therefore reaches no peer. *)
Theorem started_service_relays_nothing (lib : sio_library) (ops : list op) :
  (∀ r x, x ∈ members (sio_rooms (run lib ops initial_store)) r → x = r)
  ∧ (∀ e x, e ∈ trace lib ops initial_store → x ∈ em_to e → x = em_room e).
Proof.
  assert (only_own_groups initial_store) as Hinit.
  { split; [done|]. intros r x. unfold members. simpl.
    rewrite lookup_empty. simpl. set_solver. }
  split.
  - apply run_only_own_groups, Hinit.
  - intros e x. by apply trace_only_own_groups.
Qed.

Lemma started_service_relays_nothing_witness :
  Forall (λ e, ∀ x, x ∈ em_to e → x = em_room e)
    (trace coroutines
       [Connect "a"; Connect "b"; Join "a" (ex_event (Some "room-1"));
        Offer "a" (ex_event (Some "room-1")); Offer "a" (ex_event (Some "b"))]
       initial_store).
Proof.
  apply Forall_forall. intros e He x.
  by apply (proj2 (started_service_relays_nothing coroutines
                     [Connect "a"; Connect "b"; Join "a" (ex_event (Some "room-1"));
                      Offer "a" (ex_event (Some "room-1"));
                      Offer "a" (ex_event (Some "b"))]) e x).
Defined.
